(** * Corp-Agent: the Hindi document question-answering script [e5.py]

    A shallow embedding of the module-level start-up pipeline (credential
    check, document loading, chunking, indexing), of the query function
    [handle_user_input] and of the two Flask routes, together with the
    properties of the specification that concern them.

    Python [str] values are sequences of Unicode code points; they are
    modelled as lists of code points so that Devanagari text and the emoji
    of the greeting strings are single characters, as in the program. *)

From Stdlib Require Import String Ascii DecimalString.
From Stdlib Require Import List NArith ZArith Bool Lia.
Import ListNotations.

(** ** Python strings *)

Module PyStr.

Definition char := N.
Definition pystr := list char.

(** An ASCII literal of the source as a code-point sequence. *)
Fixpoint lit (s : string) : pystr :=
  match s with
  | EmptyString => []
  | String a r => N_of_ascii a :: lit r
  end.

Definition NL : char := 10%N.
Definition SP : char := 32%N.

(** Truthiness of a [str]: [if s:] / [not s]. *)
Definition truthy (s : pystr) : bool :=
  match s with [] => false | _ :: _ => true end.

Definition char_eqb (a b : char) : bool := N.eqb a b.

Fixpoint eqb (s t : pystr) : bool :=
  match s, t with
  | [], [] => true
  | a :: s', b :: t' => char_eqb a b && eqb s' t'
  | _, _ => false
  end.

(** [text.startswith(p)] *)
Fixpoint startswith (p text : pystr) : bool :=
  match p, text with
  | [], _ => true
  | a :: p', b :: t' => char_eqb a b && startswith p' t'
  | _ :: _, [] => false
  end.

(** [text.endswith(p)] *)
Definition endswith (p text : pystr) : bool :=
  startswith (rev p) (rev text).

(** [p in text] for a literal [p] (also [re.search(re.escape(p), text)]). *)
Fixpoint contains (p text : pystr) : bool :=
  startswith p text ||
  match text with
  | [] => false
  | _ :: t' => contains p t'
  end.

(** [str.isspace] on one code point: the white-space table of CPython. *)
Definition isspace (c : char) : bool :=
  ((9 <=? c) && (c <=? 13) || (28 <=? c) && (c <=? 32)
   || (c =? 133) || (c =? 160) || (c =? 5760)
   || (8192 <=? c) && (c <=? 8202)
   || (c =? 8232) || (c =? 8233) || (c =? 8239) || (c =? 8287)
   || (c =? 12288))%N.

Fixpoint lstrip (s : pystr) : pystr :=
  match s with
  | [] => []
  | c :: r => if isspace c then lstrip r else s
  end.

Definition rstrip (s : pystr) : pystr := rev (lstrip (rev s)).

(** [s.strip()] *)
Definition strip (s : pystr) : pystr := rstrip (lstrip s).

(** [sep.join(parts)] *)
Fixpoint join (sep : pystr) (parts : list pystr) : pystr :=
  match parts with
  | [] => []
  | [p] => p
  | p :: ps => p ++ sep ++ join sep ps
  end.

(** [s] occurs in [t] as a contiguous run of characters. *)
Definition substring (s t : pystr) : Prop :=
  exists pre post, t = pre ++ s ++ post.

Definition blank (s : pystr) : bool := forallb isspace s.

End PyStr.
Import PyStr.

(** ** Exceptions and the effect monad

    Module-level code and the handlers print, call external libraries and
    may raise.  A computation yields the sequence of events it performed
    and either a value or the exception that stopped it. *)

Inductive exn : Type :=
  | ValueError (msg : pystr)
  | FileNotFoundError (msg : pystr)
  | NotADirectoryError (path : pystr)
  | NameError (msg : pystr)
  | IndexError (msg : pystr)
  | LibraryError (origin : string).  (* raised inside pypdf, docx, OCR, OpenAI *)

Inductive result (A : Type) : Type :=
  | Ok (a : A)
  | Raise (e : exn).
Arguments Ok {A} a.
Arguments Raise {A} e.

Inductive event : Type :=
  | EvPrint (line : pystr)
  | EvPdfReader (path : pystr)
  | EvConvertFromPath (path : pystr)       (* rasterise the pages *)
  | EvImageToString (lang : pystr)         (* one OCR run *)
  | EvDocument (path : pystr)
  | EvSplitText
  | EvOpenAIEmbeddings
  | EvFaissFromTexts (n_chunks : nat)
  | EvOpenAI
  | EvRetrievalQA
  | EvQaRun (query : pystr)
  | EvLlmInvoke (prompt : pystr)
  | EvFlask
  | EvAppRun.

Definition trace := list event.

Definition M (A : Type) : Type := (trace * result A)%type.

Definition ret {A} (a : A) : M A := ([], Ok a).
Definition raise {A} (e : exn) : M A := ([], Raise e).
Definition tell (ev : event) : M unit := ([ev], Ok tt).

Definition bind {A B} (c : M A) (k : A -> M B) : M B :=
  match c with
  | (t, Ok a) => let (t', r) := k a in (t ++ t', r)
  | (t, Raise e) => (t, Raise e)
  end.

Arguments bind {A B} c k : simpl never.

(** An external call: its event, then the outcome the environment gives. *)
Definition call {A} (ev : event) (outcome : result A) : M A := ([ev], outcome).

Notation "x <- c ;; k" := (bind c (fun x => k))
  (at level 61, c at next level, right associativity).
Notation "c ;;; k" := (bind c (fun _ => k))
  (at level 61, right associativity).

Definition events {A} (c : M A) : trace := fst c.
Definition outcome {A} (c : M A) : result A := snd c.

(** Exceptions alone, for code that performs no event. *)
Definition rbind {A B} (r : result A) (k : A -> result B) : result B :=
  match r with
  | Ok a => k a
  | Raise e => Raise e
  end.

Notation "x <-r c ;; k" := (rbind c (fun x => k))
  (at level 61, c at next level, right associativity).

(** Truthiness of a list: [if l:] / [not l]. *)
Definition nonempty {A} (l : list A) : bool :=
  match l with [] => false | _ :: _ => true end.

(** ** The chunker

    [e5.py] constructs a [RecursiveCharacterTextSplitter] and calls its
    [split_text] (lines 72-73).  The class belongs to the langchain library;
    its code is not part of this repository.  Section 4.2 of the
    specification describes it as splitting the text into an ordered
    sequence of overlapping substrings with a fixed maximum size and
    overlap, preferring paragraph, line and word boundaries over mid-word
    splits.  The module below gives that description a definite form with
    the library's documented defaults: the separator ladder blank line,
    newline, space, empty string; separators kept at the head of the piece
    that follows them; pieces merged greedily up to the maximum size, each
    new chunk restarting from a tail of the previous one within the overlap;
    every chunk stripped of surrounding white space and dropped when empty;
    lengths counted in characters. *)

Module Splitter.

Local Open Scope Z_scope.

(** Modelled from the spec: the chunker's two parameters, the "fixed
    maximum size and overlap length" of section 4.2 (the splitter class is
    missing from the repository). *)
Record config : Type := mk_config {
  chunk_size : Z;
  chunk_overlap : Z
}.

(** Modelled from the spec: the length of a chunk, in characters (the
    splitter's length function is missing from the repository). *)
Definition len (s : pystr) : Z := Z.of_nat (length s).

(** Modelled from the spec: the "natural breakpoints" of section 4.2, from
    paragraph boundary down to any position (the splitter's separator list
    is missing from the repository). *)
Definition separators : list pystr := [[NL; NL]; [NL]; [SP]; []].

(** Modelled from the spec: cutting a text at a breakpoint (the regular
    expression split the splitter uses is missing from the repository).
    The pieces of [text] between the leftmost non-overlapping occurrences of
    a non-empty [sep]; [cur] is the piece being read, reversed.  Every step
    consumes a character, so [length text] is enough fuel. *)
Fixpoint re_split (fuel : nat) (sep cur text : pystr) : list pystr :=
  match text with
  | [] => [rev cur]
  | c :: rest =>
      match fuel with
      | O => [rev cur ++ text]
      | S fuel' =>
          if startswith sep text
          then rev cur :: re_split fuel' sep [] (skipn (length sep) text)
          else re_split fuel' sep (c :: cur) rest
      end
  end.

(** Modelled from the spec: the pieces of a text at one kind of breakpoint
    (the splitter's helper of this name is missing from the repository).
    Split on [separator], keeping it in front of the piece it precedes; on
    the empty separator split into single characters.  Empty pieces are
    dropped. *)
Definition _split_text_with_regex (text separator : pystr) : list pystr :=
  let splits :=
    if truthy separator then
      match re_split (length text) separator [] text with
      | [] => []
      | s0 :: rest => s0 :: map (fun p => separator ++ p) rest
      end
    else map (fun c => [c]) text in
  filter truthy splits.

(** Modelled from the spec: a chunk is the text of consecutive pieces,
    non-empty (section 3), without surrounding white space (the splitter's
    method of this name is missing from the repository). *)
Definition _join_docs (docs : list pystr) (separator : pystr) : option pystr :=
  let text := strip (join separator docs) in
  if truthy text then Some text else None.

Section Merge.

Variable cfg : config.
Variable separator : pystr.

Local Abbreviation separator_len := (len separator).

(** Modelled from the spec: the overlap between consecutive chunks (the
    inner [while] of the splitter's merge is missing from the repository).
    Drop pieces from the front of the current window until what is kept
    fits the overlap and leaves room for the incoming piece of length
    [_len]. *)
Fixpoint pop_front (_len total : Z) (current_doc : list pystr)
  : result (Z * list pystr) :=
  if (total >? chunk_overlap cfg)
     || ((total + _len + (if nonempty current_doc then separator_len else 0)
            >? chunk_size cfg) && (total >? 0))
  then
    match current_doc with
    | [] => Raise (IndexError (lit "list index out of range"))  (* current_doc[0] *)
    | d0 :: rest =>
        pop_front _len
          (total - (len d0 + (if nonempty rest then separator_len else 0)))
          rest
    end
  else Ok (total, current_doc).

(** Modelled from the spec: closing the current window into a chunk (part
    of the splitter's merge, missing from the repository). *)
Definition emit (docs current_doc : list pystr) : list pystr :=
  match _join_docs current_doc separator with
  | Some doc => docs ++ [doc]
  | None => docs
  end.

(** Modelled from the spec: filling chunks up to the maximum size (the
    [for d in splits] loop of the splitter's merge, with its three
    variables, is missing from the repository). *)
Fixpoint merge_loop (splits docs current_doc : list pystr) (total : Z)
  : result (list pystr) :=
  match splits with
  | [] => Ok (emit docs current_doc)
  | d :: rest =>
      let _len := len d in
      st <-r
        (if (total + _len + (if nonempty current_doc then separator_len else 0)
               >? chunk_size cfg) && nonempty current_doc
         then
           p <-r pop_front _len total current_doc ;;
           Ok (emit docs current_doc, snd p, fst p)
         else Ok (docs, current_doc, total)) ;;
      let '(docs1, current_doc1, total1) := st in
      let current_doc2 := current_doc1 ++ [d] in
      merge_loop rest docs1 current_doc2
        (total1 + _len
         + (if nonempty current_doc1 then separator_len else 0))
  end.

(** Modelled from the spec: merging short pieces into "overlapping
    substrings" bounded by the maximum size (the splitter's method of this
    name is missing from the repository). *)
Definition _merge_splits (splits : list pystr) : result (list pystr) :=
  merge_loop splits [] [] 0.

End Merge.

(** Modelled from the spec: "preferring natural breakpoints ... when
    possible" (the splitter's separator selection is missing from the
    repository).  The separator to use for [text]: the first of the ladder
    that is empty or occurs in [text], with the separators after it; the
    last one when none qualifies. *)
Fixpoint choose (separators : list pystr) (text dflt : pystr)
  : pystr * list pystr :=
  match separators with
  | [] => (dflt, [])
  | _s :: rest =>
      if negb (truthy _s) then (_s, [])
      else if contains _s text then (_s, rest)
      else choose rest text dflt
  end.

Section Split.

Variable cfg : config.

(** Modelled from the spec: the chunker's main loop (the [for s in splits]
    loop of the splitter is missing from the repository).  Short pieces are
    collected and merged, a piece that is too long is split again with the
    remaining separators, or kept whole when there is none left. *)
Fixpoint split_loop (new_separators : list pystr)
    (recur : pystr -> result (list pystr))
    (splits _good_splits final_chunks : list pystr) : result (list pystr) :=
  match splits with
  | [] =>
      if nonempty _good_splits then
        merged <-r _merge_splits cfg [] _good_splits ;;
        Ok (final_chunks ++ merged)
      else Ok final_chunks
  | s :: rest =>
      if len s <? chunk_size cfg then
        split_loop new_separators recur rest (_good_splits ++ [s]) final_chunks
      else
        final1 <-r
          (if nonempty _good_splits then
             merged <-r _merge_splits cfg [] _good_splits ;;
             Ok (final_chunks ++ merged)
           else Ok final_chunks) ;;
        final2 <-r
          (if nonempty new_separators then
             other_info <-r recur s ;;
             Ok (final1 ++ other_info)
           else Ok (final1 ++ [s])) ;;
        split_loop new_separators recur rest [] final2
  end.

(** Modelled from the spec: the recursive chunker of section 4.2 (the
    splitter's method of this name is missing from the repository).
    [fuel] bounds the depth of the recursion, which descends the ladder. *)
Fixpoint _split_text (fuel : nat) (text : pystr) (separators : list pystr)
  : result (list pystr) :=
  match fuel with
  | O => Raise (LibraryError "RecursionError")
  | S fuel' =>
      match rev separators with
      | [] => Raise (IndexError (lit "list index out of range"))
      | last_sep :: _ =>
          let (separator, new_separators) := choose separators text last_sep in
          let splits := _split_text_with_regex text separator in
          split_loop new_separators
            (fun s => _split_text fuel' s new_separators) splits [] []
      end
  end.

(** Modelled from the spec: the Chunker of section 4.2, which "splits the
    full concatenated text into an ordered sequence of overlapping
    substrings using a fixed maximum size and overlap length"
    ([RecursiveCharacterTextSplitter.split_text] is missing from the
    repository). *)
Definition split_text (text : pystr) : result (list pystr) :=
  _split_text (length separators) text separators.

End Split.

End Splitter.

(** [splitter = RecursiveCharacterTextSplitter(chunk_size=500, chunk_overlap=50)] *)
Definition splitter : Splitter.config := Splitter.mk_config 500 50.

(** ** The environment of the script

    What the operating system and the external libraries answer.  A file of
    the document folder is described by what each library the script may
    apply to it returns; which one is applied depends on the file name
    only. *)

Record File : Type := mk_file {
  f_name : pystr;
  (* [PdfReader(path).pages], each with its [extract_text()] *)
  f_pages : result (list (result pystr));
  (* [convert_from_path(path)], each image with its
     [image_to_string(img, lang="hin")] *)
  f_ocr : result (list (result pystr));
  (* [Document(path).paragraphs], each with its [text] *)
  f_paragraphs : result (list pystr)
}.

Inductive fs_node : Type :=
  | FsFile
  | FsDir (entries : list File).   (* in [os.listdir] order *)

Record World : Type := mk_world {
  w_api_key : option pystr;        (* [os.getenv("OPENAI_API_KEY")] after [load_dotenv()] *)
  w_here : pystr;                  (* [os.path.dirname(__file__)] *)
  w_documents : option fs_node;    (* what is found at [data_folder] *)
  w_dunder_name : pystr;           (* [__name__] *)
  w_faiss : list pystr -> result unit;    (* [FAISS.from_texts] *)
  w_qa_run : pystr -> result pystr;       (* [qa_chain.run] *)
  w_llm_invoke : pystr -> result pystr    (* [llm.invoke] *)
}.

(** [os.path.join] on two components (POSIX flavour). *)
Definition path_join (a b : pystr) : pystr :=
  if startswith (lit "/") b then b
  else if negb (truthy a) || endswith (lit "/") a then a ++ b
  else a ++ lit "/" ++ b.

(** ** Document loader (lines 24-44) *)

(** [for page in reader.pages] *)
Fixpoint read_pages (pages : list (result pystr)) (text : pystr) : M pystr :=
  match pages with
  | [] => ret text
  | page :: rest =>
      page_text <- ([], page) ;;
      read_pages rest
        (if truthy page_text then text ++ page_text ++ [NL] else text)
  end.

(** [for img in images] *)
Fixpoint ocr_images (images : list (result pystr)) (text : pystr) : M pystr :=
  match images with
  | [] => ret text
  | img :: rest =>
      s <- call (EvImageToString (lit "hin")) img ;;
      ocr_images rest (text ++ s ++ [NL])
  end.

Definition msg_using_ocr (pdf_path : pystr) : pystr :=
  [0x1F50D%N] ++ lit " No direct text found in " ++ pdf_path
  ++ lit ", using OCR...".

(** The body of [if not text.strip():] (lines 33-36). *)
Definition ocr_fallback (pdf_path : pystr) (f : File) (text : pystr) : M pystr :=
  tell (EvPrint (msg_using_ocr pdf_path)) ;;;
  images <- call (EvConvertFromPath pdf_path) (f_ocr f) ;;
  ocr_images images text.

Definition extract_text_from_pdf (pdf_path : pystr) (f : File) : M pystr :=
  pages <- call (EvPdfReader pdf_path) (f_pages f) ;;
  text <- read_pages pages [] ;;
  text' <-
    (if negb (truthy (strip text)) then ocr_fallback pdf_path f text
     else ret text) ;;
  ret (strip text').

Definition extract_text_from_docx (docx_path : pystr) (f : File) : M pystr :=
  paragraphs <- call (EvDocument docx_path) (f_paragraphs f) ;;
  let text :=
    join [NL] (filter (fun para_text => truthy (strip para_text)) paragraphs) in
  ret (strip text).

(** ** Start-up (lines 13-86) *)

Definition msg_no_key : pystr :=
  lit "OpenAI API key is missing! Check your .env file.".

Definition msg_no_content : pystr :=
  lit "No valid content found in the PDFs or DOCX files.".

Definition data_folder (w : World) : pystr :=
  path_join (path_join (w_here w) (lit "data_files")) (lit "documents").

Definition msg_no_folder (w : World) : pystr :=
  lit "Folder not found: " ++ data_folder w.

Definition CHECK : char := 0x2705%N.

(** One turn of [for filename in os.listdir(data_folder)]. *)
Definition load_one (folder : pystr) (all_text : list pystr) (f : File)
  : M (list pystr) :=
  let filename := f_name f in
  let file_path := path_join folder filename in
  if endswith (lit ".pdf") filename then
    extracted_text <- extract_text_from_pdf file_path f ;;
    if truthy extracted_text then
      tell (EvPrint ([CHECK] ++ lit " Loaded PDF: " ++ filename)) ;;;
      ret (all_text ++ [extracted_text])
    else ret all_text
  else if endswith (lit ".docx") filename then
    extracted_text <- extract_text_from_docx file_path f ;;
    if truthy extracted_text then
      tell (EvPrint ([CHECK] ++ lit " Loaded DOCX: " ++ filename)) ;;;
      ret (all_text ++ [extracted_text])
    else ret all_text
  else ret all_text.

Fixpoint load_loop (folder : pystr) (files : list File) (all_text : list pystr)
  : M (list pystr) :=
  match files with
  | [] => ret all_text
  | f :: rest =>
      all_text' <- load_one folder all_text f ;;
      load_loop folder rest all_text'
  end.

Definition check_api_key (w : World) : M pystr :=
  match w_api_key w with
  | Some openai_api_key =>
      if negb (truthy openai_api_key) then raise (ValueError msg_no_key)
      else ret openai_api_key
  | None => raise (ValueError msg_no_key)
  end.

(** Lines 47-53: the existence check, then [os.listdir]. *)
Definition list_documents (w : World) : M (list File) :=
  match w_documents w with
  | None => raise (FileNotFoundError (msg_no_folder w))
  | Some FsFile => raise (NotADirectoryError (data_folder w))
  | Some (FsDir entries) => ret entries
  end.

Definition decimal (n : nat) : pystr :=
  lit (DecimalString.NilEmpty.string_of_uint (Nat.to_uint n)).

(** Lines 47-69: the corpus as one text. *)
Definition load_documents (w : World) : M pystr :=
  files <- list_documents w ;;
  all_text <- load_loop (data_folder w) files [] ;;
  if negb (nonempty all_text) then raise (ValueError msg_no_content)
  else
    let full_text := join [NL] all_text in
    tell (EvPrint ([CHECK] ++ lit " All PDFs & DOCX files loaded successfully!")) ;;;
    ret full_text.

(** Lines 71-86: chunk, embed, index, build the retrieval chain. *)
Definition build_index (w : World) (full_text : pystr) : M (list pystr) :=
  chunks <- call EvSplitText (Splitter.split_text splitter full_text) ;;
  tell (EvPrint ([CHECK] ++ lit " Generated " ++ decimal (length chunks)
                 ++ lit " text chunks.")) ;;;
  tell EvOpenAIEmbeddings ;;;
  call (EvFaissFromTexts (length chunks)) (w_faiss w chunks) ;;;
  tell (EvPrint ([CHECK] ++ lit " FAISS Vector Store Created!")) ;;;
  tell EvOpenAI ;;;
  tell EvRetrievalQA ;;;
  ret chunks.

(** Everything the module executes before the final guard. *)
Definition startup (w : World) : M (list pystr) :=
  check_api_key w ;;;
  full_text <- load_documents w ;;
  chunks <- build_index w full_text ;;
  tell EvFlask ;;;
  ret chunks.

(** ** Query function (lines 89-96) *)

Definition msg_sorry : pystr :=
  lit "I'm sorry, I couldn't find an answer to that question.".

Definition msg_translation_failed : pystr := lit "Translation failed.".

Definition translation_prompt_of (hindi_response : pystr) : pystr :=
  lit "Translate the following Hindi text to English:" ++ [NL; NL]
  ++ hindi_response ++ [NL; NL] ++ lit "Provide a natural English answer.".

Definition handle_user_input (w : World) (user_query : pystr) : M pystr :=
  hindi_response <- call (EvQaRun user_query) (w_qa_run w user_query) ;;
  if negb (truthy hindi_response) then ret msg_sorry
  else
    let translation_prompt := translation_prompt_of hindi_response in
    english_response <-
      call (EvLlmInvoke translation_prompt) (w_llm_invoke w translation_prompt) ;;
    ret (if truthy english_response then english_response
         else msg_translation_failed).

(** ** The Flask routes (lines 101-117) *)

Inductive method : Type := GET | POST | HEAD.

(** [request.form] and [request.args] are multi-dictionaries: [get] answers
    the first value stored under the key. *)
Definition multidict := list (pystr * pystr).

Fixpoint multidict_get (key : pystr) (d : multidict) : option pystr :=
  match d with
  | [] => None
  | (k, v) :: rest => if eqb k key then Some v else multidict_get key rest
  end.

(** [d.get(key, default)] *)
Definition multidict_get_default (key default : pystr) (d : multidict) : pystr :=
  match multidict_get key d with
  | Some v => v
  | None => default
  end.

Record request : Type := mk_request {
  req_method : method;
  req_form : multidict;
  req_args : multidict
}.

(** The dictionaries given to [jsonify] have string values: a JSON object
    is the list of its fields. *)
Definition json_object := list (pystr * pystr).

Inductive response : Type :=
  | RenderTemplate (template : pystr) (context : list (pystr * pystr))
  | Jsonify (body : json_object).

(** Truthiness of a value that is [None] or a [str]. *)
Definition truthy_opt (v : option pystr) : bool :=
  match v with
  | Some s => truthy s
  | None => false
  end.

(** What an f-string shows for such a value. *)
Definition format_opt (v : option pystr) : pystr :=
  match v with
  | Some s => s
  | None => lit "None"
  end.

Definition greeting_initial : pystr :=
  [0x1F916%N]
  ++ lit " Hello! I am your AI assistant. Please provide your details to begin.".

Definition greeting_for (user_name : pystr) : pystr :=
  [0x1F916%N] ++ lit " Welcome, " ++ user_name ++ lit "! " ++ [0x1F389%N]
  ++ lit " I am here to assist you with queries from my trained knowledge.".

Definition initial_page : response :=
  RenderTemplate (lit "index.html") [(lit "greeting", greeting_initial)].

Definition index (w : World) (req : request) : M response :=
  match req_method req with
  | POST =>
      let user_name := multidict_get (lit "name") (req_form req) in
      let user_dob := multidict_get (lit "dob") (req_form req) in
      let query := multidict_get (lit "question") (req_form req) in
      if truthy_opt user_name && truthy_opt user_dob && truthy_opt query then
        response <- handle_user_input w (format_opt query) ;;
        let greeting := greeting_for (format_opt user_name) in
        ret (RenderTemplate (lit "index.html")
               [(lit "greeting", greeting); (lit "response", response);
                (lit "name", format_opt user_name);
                (lit "dob", format_opt user_dob)])
      else ret initial_page
  | _ => ret initial_page
  end.

Definition farewell_for (name : pystr) : pystr :=
  [0x1F44B%N] ++ lit " Bye, " ++ name ++ lit "! Have a great day! "
  ++ [0x1F60A%N].

Definition exit_app (req : request) : M response :=
  let name := multidict_get_default (lit "name") (lit "friend") (req_args req) in
  let farewell := farewell_for name in
  ret (Jsonify [(lit "farewell", farewell)]).

(** ** The final guard (lines 119-120)

    A bare name is looked up in the module's globals, then among the
    built-ins; a name found in neither raises [NameError]. *)

Module Namespace.

Local Open Scope string_scope.

(** Names bound in the module when the guard is reached. *)
Definition global_names : list string :=
  [ "__name__"; "__doc__"; "__package__"; "__loader__"; "__spec__";
    "__file__"; "__builtins__";
    "os"; "pytesseract"; "convert_from_path";
    "RecursiveCharacterTextSplitter"; "OpenAIEmbeddings"; "OpenAI"; "FAISS";
    "RetrievalQA"; "PdfReader"; "Document"; "load_dotenv";
    "Flask"; "request"; "render_template"; "jsonify";
    "openai_api_key"; "extract_text_from_pdf"; "extract_text_from_docx";
    "data_folder"; "all_text"; "filename"; "file_path"; "extracted_text";
    "full_text"; "splitter"; "chunks"; "embedding_model"; "vector_db";
    "llm"; "retriever"; "qa_chain"; "handle_user_input"; "app"; "index";
    "exit_app" ].

(** The built-in functions, constants and exception classes. *)
Definition builtin_names : list string :=
  [ "abs"; "aiter"; "all"; "anext"; "any"; "ascii"; "bin"; "bool";
    "breakpoint"; "bytearray"; "bytes"; "callable"; "chr"; "classmethod";
    "compile"; "complex"; "delattr"; "dict"; "dir"; "divmod"; "enumerate";
    "eval"; "exec"; "filter"; "float"; "format"; "frozenset"; "getattr";
    "globals"; "hasattr"; "hash"; "help"; "hex"; "id"; "input"; "int";
    "isinstance"; "issubclass"; "iter"; "len"; "list"; "locals"; "map";
    "max"; "memoryview"; "min"; "next"; "object"; "oct"; "open"; "ord";
    "pow"; "print"; "property"; "range"; "repr"; "reversed"; "round";
    "set"; "setattr"; "slice"; "sorted"; "staticmethod"; "str"; "sum";
    "super"; "tuple"; "type"; "vars"; "zip"; "__import__";
    "True"; "False"; "None"; "NotImplemented"; "Ellipsis"; "__debug__";
    "quit"; "exit"; "copyright"; "credits"; "license";
    "BaseException"; "Exception"; "ArithmeticError"; "AssertionError";
    "AttributeError"; "BlockingIOError"; "BrokenPipeError"; "BufferError";
    "ChildProcessError"; "ConnectionError"; "EOFError"; "EnvironmentError";
    "FileExistsError"; "FileNotFoundError"; "FloatingPointError";
    "GeneratorExit"; "IOError"; "ImportError"; "IndentationError";
    "IndexError"; "InterruptedError"; "IsADirectoryError"; "KeyError";
    "KeyboardInterrupt"; "LookupError"; "MemoryError";
    "ModuleNotFoundError"; "NameError"; "NotADirectoryError";
    "NotImplementedError"; "OSError"; "OverflowError"; "PermissionError";
    "ProcessLookupError"; "RecursionError"; "ReferenceError";
    "RuntimeError"; "StopAsyncIteration"; "StopIteration"; "SyntaxError";
    "SystemError"; "SystemExit"; "TabError"; "TimeoutError"; "TypeError";
    "UnboundLocalError"; "UnicodeDecodeError"; "UnicodeEncodeError";
    "UnicodeError"; "UnicodeTranslateError"; "ValueError";
    "ZeroDivisionError"; "Warning"; "UserWarning"; "DeprecationWarning";
    "RuntimeWarning"; "SyntaxWarning"; "FutureWarning"; "ImportWarning";
    "UnicodeWarning"; "BytesWarning"; "ResourceWarning" ].

Definition bound (x : string) (names : list string) : bool :=
  existsb (String.eqb x) names.

End Namespace.

(** The value of a global as far as the guard is concerned. *)
Inductive value : Type :=
  | VStr (s : pystr)
  | VObject.

Definition load_name (w : World) (x : string) : M value :=
  if String.eqb x "__name__" then ret (VStr (w_dunder_name w))
  else if Namespace.bound x Namespace.global_names
          || Namespace.bound x Namespace.builtin_names then ret VObject
  else raise (NameError (lit "name '" ++ lit x ++ lit "' is not defined")).

(** [v == s] for a string literal [s]. *)
Definition value_eq_str (v : value) (s : pystr) : bool :=
  match v with
  | VStr t => eqb t s
  | VObject => false
  end.

(** [if _name_ == "__main__": app.run(debug=True)] *)
Definition main_guard (w : World) : M unit :=
  v <- load_name w "_name_" ;;
  if value_eq_str v (lit "__main__") then tell EvAppRun else ret tt.

(** Executing the module, as [python e5.py] does. *)
Definition module_main (w : World) : M unit :=
  startup w ;;; main_guard w.

(** The stages that follow document loading, and serving. *)
Definition later_stage (ev : event) : bool :=
  match ev with
  | EvSplitText | EvOpenAIEmbeddings | EvFaissFromTexts _ | EvOpenAI
  | EvRetrievalQA | EvQaRun _ | EvLlmInvoke _ | EvFlask | EvAppRun => true
  | _ => false
  end.

(** The OCR fallback: rasterising the pages or recognising an image. *)
Definition ocr_event (ev : event) : bool :=
  match ev with
  | EvConvertFromPath _ | EvImageToString _ => true
  | _ => false
  end.

(** The question-answering engine: either model invocation. *)
Definition qa_event (ev : event) : bool :=
  match ev with
  | EvQaRun _ | EvLlmInvoke _ => true
  | _ => false
  end.

(** What the load loop extracts from one directory entry: the PDF or the
    DOCX extractor according to the file name, nothing for other names. *)
Definition extraction (folder : pystr) (f : File) : M pystr :=
  if endswith (lit ".pdf") (f_name f) then
    extract_text_from_pdf (path_join folder (f_name f)) f
  else if endswith (lit ".docx") (f_name f) then
    extract_text_from_docx (path_join folder (f_name f)) f
  else ret [].

(** All pages answered: their texts; otherwise the first exception. *)
Fixpoint page_texts (pages : list (result pystr)) : result (list pystr) :=
  match pages with
  | [] => Ok []
  | Ok t :: rest =>
      match page_texts rest with
      | Ok ts => Ok (t :: ts)
      | Raise e => Raise e
      end
  | Raise e :: _ => Raise e
  end.

(** The text the page loop accumulates. *)
Definition direct_text (texts : list pystr) : pystr :=
  concat (map (fun t => t ++ [NL]) (filter truthy texts)).

Definition extracted_text_of (folder : pystr) (f : File) : pystr :=
  match outcome (extraction folder f) with
  | Ok s => s
  | Raise _ => []
  end.

Definition returns {A} (c : M A) : Prop := exists a, outcome c = Ok a.

Definition key_missing (w : World) : Prop :=
  w_api_key w = None \/ w_api_key w = Some [].

Definition yields_text (folder : pystr) (f : File) : Prop :=
  exists s, outcome (extraction folder f) = Ok s /\ s <> [].

(** The events of document loading. *)
Definition loader_event (ev : event) : bool :=
  match ev with
  | EvPrint _ | EvPdfReader _ | EvConvertFromPath _ | EvImageToString _
  | EvDocument _ => true
  | _ => false
  end.

(** What is asked of a chunk of [text]: it occurs in [text] and respects
    the maximum size. *)
Definition good_chunk (cfg : Splitter.config) (text chunk : pystr) : Prop :=
  substring chunk text /\ (Splitter.len chunk <= Splitter.chunk_size cfg)%Z.

Definition app_run_event (ev : event) : bool :=
  match ev with
  | EvAppRun => true
  | _ => false
  end.

Definition msg_name_error : pystr := lit "name '_name_' is not defined".

(** ** Sample environments *)

Module Sample.

Definition not_a_pdf : result (list (result pystr)) :=
  Raise (LibraryError "PdfReadError").
Definition not_a_docx : result (list pystr) :=
  Raise (LibraryError "PackageNotFoundError").
Definition no_tesseract : result (list (result pystr)) :=
  Raise (LibraryError "TesseractNotFoundError").

(** A DOCX file with two paragraphs of text and a blank one. *)
Definition notes_docx : File :=
  mk_file (lit "notes.docx") not_a_pdf no_tesseract
    (Ok ([0x930; 0x93E; 0x91C; 0x927; 0x93E; 0x928; 0x940; SP;
          0x926; 0x93F; 0x932; 0x94D; 0x932; 0x940; SP; 0x939; 0x948]%N
         :: lit "   " :: lit "second paragraph" :: nil)).

(** A PDF with a text layer on its second page. *)
Definition report_pdf : File :=
  mk_file (lit "report.pdf") (Ok [Ok []; Ok (lit "Annual report")])
    (Ok [Ok (lit "never read"); Ok (lit "never read")]) not_a_docx.

(** A scanned PDF: no page has a text layer, OCR reads one line. *)
Definition scan_pdf : File :=
  mk_file (lit "scan.pdf") (Ok [Ok []; Ok (lit "  ")])
    (Ok [Ok (lit "line one"); Ok (lit " ")]) not_a_docx.

(** A file that is not a PDF despite its name. *)
Definition corrupt_pdf : File :=
  mk_file (lit "broken.pdf") not_a_pdf no_tesseract not_a_docx.

(** A DOCX file without text. *)
Definition empty_docx : File :=
  mk_file (lit "empty.docx") not_a_pdf no_tesseract (Ok [lit "  "; []]).

Definition readme : File :=
  mk_file (lit "README.txt") not_a_pdf no_tesseract not_a_docx.

Definition folder : pystr := lit "/srv/app/data_files/documents".

Definition world_with (key : option pystr) (docs : option fs_node)
    (qa llm : pystr -> result pystr) : World :=
  mk_world key (lit "/srv/app") docs (lit "__main__")
    (fun _ => Ok tt) qa llm.

Definition answer_hi : pystr -> result pystr :=
  fun _ => Ok [0x926; 0x93F; 0x932; 0x94D; 0x932; 0x940]%N.
Definition answer_en : pystr -> result pystr := fun _ => Ok (lit "Delhi").
Definition answer_nothing : pystr -> result pystr := fun _ => Ok [].

Definition key : option pystr := Some (lit "sk-test").

(** A complete installation. *)
Definition world : World :=
  world_with key (Some (FsDir [notes_docx; readme; scan_pdf; empty_docx]))
    answer_hi answer_en.

Definition world_no_key : World :=
  world_with None (Some (FsDir [notes_docx])) answer_hi answer_en.

Definition world_no_folder : World :=
  world_with key None answer_hi answer_en.

Definition world_corrupt : World :=
  world_with key (Some (FsDir [corrupt_pdf; notes_docx])) answer_hi answer_en.

Definition world_no_text : World :=
  world_with key (Some (FsDir [readme; empty_docx])) answer_hi answer_en.

Definition world_mute_chain : World :=
  world_with key (Some (FsDir [notes_docx])) answer_nothing answer_en.

Definition world_mute_translator : World :=
  world_with key (Some (FsDir [notes_docx])) answer_hi answer_nothing.

Definition question : pystr := lit "What is the capital?".

Definition two_paragraphs : pystr := lit "one two" ++ [NL; NL] ++ lit "three".

(** 1500 characters of five-letter words. *)
Definition long_text : pystr := concat (repeat (lit "word ") 300).

(** 1200 characters without any breakpoint. *)
Definition unbroken_text : pystr := repeat 0x915%N 1200.

Definition exit_asha : request :=
  mk_request GET [] [(lit "name", lit "Asha")].

Definition exit_bare : request :=
  mk_request GET [] [(lit "next", lit "/")].

Definition post_without_question : request :=
  mk_request POST [(lit "name", lit "Asha"); (lit "dob", lit "2001-02-03")] [].

Definition post_empty_question : request :=
  mk_request POST
    [(lit "name", lit "Asha"); (lit "dob", lit "2001-02-03");
     (lit "question", [])] [].

End Sample.

(** ** Notions used to describe the loader and the routes *)

(** A text without white space at either end, as [str.strip] leaves it. *)
Definition stripped (s : pystr) : Prop := strip s = s.

(** The directory entries the load loop acts on (lines 55 and 60). *)
Definition is_document (f : File) : bool :=
  endswith (lit ".pdf") (f_name f) || endswith (lit ".docx") (f_name f).

(** What the OCR loop accumulates: each recognised text and a newline. *)
Definition ocr_text (lines : list pystr) : pystr :=
  concat (map (fun s => s ++ [NL]) lines).

(** How many images the OCR loop gets to: all of them, or those up to and
    including the first one whose recognition raises. *)
Fixpoint ocr_attempts (images : list (result pystr)) : nat :=
  match images with
  | [] => 0
  | Ok _ :: rest => S (ocr_attempts rest)
  | Raise _ :: _ => 1
  end.

(** The events of the OCR fallback of lines 33-36: the notice, one
    rasterisation of the file, then one OCR run configured for Hindi per
    image reached. *)
Definition fallback_trace (pdf_path : pystr) (f : File) : trace :=
  [EvPrint (msg_using_ocr pdf_path); EvConvertFromPath pdf_path]
  ++ match f_ocr f with
     | Ok images => repeat (EvImageToString (lit "hin")) (ocr_attempts images)
     | Raise _ => []
     end.

(** The events of lines 72-99 when every stage succeeds. *)
Definition index_stages (chunks : list pystr) : trace :=
  [ EvSplitText;
    EvPrint ([CHECK] ++ lit " Generated " ++ decimal (length chunks)
             ++ lit " text chunks.");
    EvOpenAIEmbeddings;
    EvFaissFromTexts (length chunks);
    EvPrint ([CHECK] ++ lit " FAISS Vector Store Created!");
    EvOpenAI;
    EvRetrievalQA;
    EvFlask ].

(** The form of a POST that carries a name, a date of birth and a
    question, none of them empty (line 107). *)
Definition complete_form (req : request) : bool :=
  truthy_opt (multidict_get (lit "name") (req_form req))
  && truthy_opt (multidict_get (lit "dob") (req_form req))
  && truthy_opt (multidict_get (lit "question") (req_form req)).

Definition is_post (m : method) : bool :=
  match m with
  | POST => true
  | _ => false
  end.

(** The page rendered for an answered question (line 110). *)
Definition answer_page (user_name user_dob answer : pystr) : response :=
  RenderTemplate (lit "index.html")
    [(lit "greeting", greeting_for user_name); (lit "response", answer);
     (lit "name", user_name); (lit "dob", user_dob)].

(** Stages that come after the vector store is built. *)
Definition after_index_event (ev : event) : bool :=
  match ev with
  | EvOpenAI | EvRetrievalQA | EvQaRun _ | EvLlmInvoke _ | EvFlask
  | EvAppRun => true
  | _ => false
  end.

Module Cases.

(** A world whose embedding service rejects the request. *)
Definition world_no_quota : World :=
  mk_world Sample.key (lit "/srv/app")
    (Some (FsDir [Sample.notes_docx])) (lit "__main__")
    (fun _ => Raise (LibraryError "RateLimitError"))
    Sample.answer_hi Sample.answer_en.

(** A world whose retrieval chain fails. *)
Definition world_chain_down : World :=
  Sample.world_with Sample.key (Some (FsDir [Sample.notes_docx]))
    (fun _ => Raise (LibraryError "APIConnectionError")) Sample.answer_en.

(** A world whose translator fails. *)
Definition world_translator_down : World :=
  Sample.world_with Sample.key (Some (FsDir [Sample.notes_docx]))
    Sample.answer_hi (fun _ => Raise (LibraryError "APIConnectionError")).

(** A scanned PDF on a machine without the OCR program. *)
Definition scan_without_ocr : File :=
  mk_file (lit "scan.pdf") (Ok [Ok []; Ok (lit "  ")])
    Sample.no_tesseract Sample.not_a_docx.

Definition post_complete : request :=
  mk_request POST
    [(lit "name", lit "Asha"); (lit "dob", lit "2001-02-03");
     (lit "question", Sample.question)] [].

Definition get_root : request := mk_request GET [] [].

Definition hindi_answer : pystr := [0x926; 0x93F; 0x932; 0x94D; 0x932; 0x940]%N.

(** The text of [Sample.notes_docx]. *)
Definition notes_text : pystr :=
  [0x930; 0x93E; 0x91C; 0x927; 0x93E; 0x928; 0x940; SP;
   0x926; 0x93F; 0x932; 0x94D; 0x932; 0x940; SP; 0x939; 0x948; NL]%N
  ++ lit "second paragraph".

(** The corpus text of [Sample.world]. *)
Definition corpus : pystr :=
  [0x930; 0x93E; 0x91C; 0x927; 0x93E; 0x928; 0x940; SP;
   0x926; 0x93F; 0x932; 0x94D; 0x932; 0x940; SP; 0x939; 0x948; NL]%N
  ++ lit "second paragraph" ++ [NL] ++ lit "line one".

End Cases.

(** * Properties *)

(** ** The effect monad *)

Lemma bind_Ok {A B} (c : M A) (k : A -> M B) t a :
  c = (t, Ok a) -> bind c k = (t ++ events (k a), outcome (k a)).
Proof.
  intros ->. unfold bind, events, outcome. destruct (k a); reflexivity.
Qed.

Lemma bind_Raise {A B} (c : M A) (k : A -> M B) t e :
  c = (t, Raise e) -> bind c k = (t, Raise e).
Proof. intros ->. reflexivity. Qed.

Lemma outcome_bind {A B} (c : M A) (k : A -> M B) :
  outcome (bind c k) =
  match outcome c with
  | Ok a => outcome (k a)
  | Raise e => Raise e
  end.
Proof.
  unfold bind, outcome. destruct c as [t [a|e]]; simpl; [|reflexivity].
  destruct (k a); reflexivity.
Qed.

Lemma events_bind {A B} (c : M A) (k : A -> M B) :
  events (bind c k) =
  events c ++ match outcome c with
              | Ok a => events (k a)
              | Raise _ => []
              end.
Proof.
  unfold bind, events, outcome. destruct c as [t [a|e]]; simpl.
  - destruct (k a); reflexivity.
  - now rewrite app_nil_r.
Qed.

Lemma events_bind_Forall {A B} (P : event -> Prop) (c : M A) (k : A -> M B) :
  Forall P (events c) ->
  (forall a, outcome c = Ok a -> Forall P (events (k a))) ->
  Forall P (events (bind c k)).
Proof.
  intros Hc Hk. rewrite events_bind. apply Forall_app. split; [exact Hc|].
  destruct (outcome c) as [a|e]; [now apply Hk | constructor].
Qed.

Lemma M_eta {A} (c : M A) : c = (events c, outcome c).
Proof. now destruct c. Qed.

(** Splits the events of a sequence of steps into those of each step. *)
Ltac step_events :=
  repeat (apply events_bind_Forall; [|intros]);
  try (unfold tell, call, ret, raise, events; simpl;
       repeat constructor; fail).

(** ** Strings *)

Lemma substring_refl (s : pystr) : substring s s.
Proof. exists [], []. now rewrite app_nil_r. Qed.

Lemma substring_trans (a b c : pystr) :
  substring a b -> substring b c -> substring a c.
Proof.
  intros (p1 & q1 & ->) (p2 & q2 & ->).
  exists (p2 ++ p1), (q1 ++ q2). now rewrite <- !app_assoc.
Qed.

Lemma substring_app_l (s a b : pystr) : substring s a -> substring s (a ++ b).
Proof.
  intros (p & q & ->). exists p, (q ++ b). now rewrite <- !app_assoc.
Qed.

Lemma substring_app_r (s a b : pystr) : substring s b -> substring s (a ++ b).
Proof.
  intros (p & q & ->). exists (a ++ p), q. now rewrite <- !app_assoc.
Qed.

Lemma substring_length (s t : pystr) : substring s t -> (length s <= length t)%nat.
Proof. intros (p & q & ->). rewrite !length_app. lia. Qed.

Lemma lstrip_decompose (s : pystr) :
  exists pre, s = pre ++ lstrip s /\ blank pre = true.
Proof.
  induction s as [|c r (pre & Hr & Hb)]; simpl.
  - now exists [].
  - destruct (isspace c) eqn:Hc.
    + exists (c :: pre). simpl. rewrite Hc, Hb. now rewrite Hr at 1.
    + now exists [].
Qed.

Lemma rstrip_decompose (s : pystr) :
  exists post, s = rstrip s ++ post /\ blank post = true.
Proof.
  destruct (lstrip_decompose (rev s)) as (pre & H & Hb).
  exists (rev pre). split.
  - unfold rstrip. rewrite <- rev_app_distr, <- H. now rewrite rev_involutive.
  - unfold blank in *. rewrite forallb_forall in *.
    intros x Hx. apply Hb. now apply in_rev.
Qed.

Lemma strip_decompose (s : pystr) :
  exists pre post,
    s = pre ++ strip s ++ post /\ blank pre = true /\ blank post = true.
Proof.
  destruct (lstrip_decompose s) as (pre & Hl & Hpre).
  destruct (rstrip_decompose (lstrip s)) as (post & Hr & Hpost).
  exists pre, post. unfold strip. now rewrite <- Hr.
Qed.

Lemma strip_substring (s : pystr) : substring (strip s) s.
Proof. destruct (strip_decompose s) as (pre & post & H & _). now exists pre, post. Qed.

Lemma strip_length (s : pystr) : (length (strip s) <= length s)%nat.
Proof. apply substring_length, strip_substring. Qed.

Lemma blank_app (a b : pystr) : blank (a ++ b) = blank a && blank b.
Proof. apply forallb_app. Qed.

Lemma lstrip_nil_iff (s : pystr) : lstrip s = [] <-> blank s = true.
Proof.
  induction s as [|c r IH]; simpl; [tauto|].
  destruct (isspace c); simpl; [exact IH|].
  split; discriminate.
Qed.

Lemma blank_rev (s : pystr) : blank (rev s) = blank s.
Proof.
  induction s as [|c r IH]; [reflexivity|].
  simpl. rewrite blank_app, IH. simpl. rewrite andb_true_r. apply andb_comm.
Qed.

Lemma lstrip_blank (s : pystr) : blank (lstrip s) = blank s.
Proof.
  induction s as [|c r IH]; [reflexivity|].
  simpl. destruct (isspace c) eqn:Hc; simpl; [exact IH|].
  now rewrite Hc.
Qed.

(** Stripping leaves nothing exactly when the text is white space only. *)
Lemma strip_nil_iff (s : pystr) : strip s = [] <-> blank s = true.
Proof.
  unfold strip, rstrip. split.
  - intros H. apply (f_equal (@rev char)) in H.
    rewrite rev_involutive in H. simpl in H.
    apply lstrip_nil_iff in H. now rewrite blank_rev, lstrip_blank in H.
  - intros H. assert (E : lstrip (rev (lstrip s)) = []).
    { apply lstrip_nil_iff. now rewrite blank_rev, lstrip_blank. }
    now rewrite E.
Qed.

Lemma truthy_false_iff (s : pystr) : truthy s = false <-> s = [].
Proof. destruct s; simpl; split; congruence. Qed.

Lemma truthy_true_iff (s : pystr) : truthy s = true <-> s <> [].
Proof. destruct s; simpl; split; congruence. Qed.

Lemma truthy_strip (s : pystr) : truthy (strip s) = negb (blank s).
Proof.
  destruct (blank s) eqn:Hb; simpl.
  - apply truthy_false_iff. now apply strip_nil_iff.
  - apply truthy_true_iff. intros H. apply strip_nil_iff in H. congruence.
Qed.

Lemma lstrip_blank_prefix (b x : pystr) :
  blank b = true -> lstrip (b ++ x) = lstrip x.
Proof.
  induction b as [|c b IH]; simpl; [reflexivity|].
  destruct (isspace c); [exact IH | discriminate].
Qed.

(** White space in front of a text does not survive stripping. *)
Lemma strip_blank_prefix (b x : pystr) :
  blank b = true -> strip (b ++ x) = strip x.
Proof. intros H. unfold strip. now rewrite lstrip_blank_prefix. Qed.

Lemma eqb_refl (s : pystr) : eqb s s = true.
Proof.
  induction s as [|c r IH]; [reflexivity|].
  simpl. unfold char_eqb. now rewrite N.eqb_refl.
Qed.

Lemma eqb_eq (s t : pystr) : eqb s t = true <-> s = t.
Proof.
  revert t. induction s as [|a s IH]; intros [|b t]; simpl;
    try (split; congruence).
  unfold char_eqb. rewrite andb_true_iff, N.eqb_eq, IH.
  split; [intros [-> ->]; reflexivity | intros [= -> ->]; now split].
Qed.

(** ** PDF extraction and the OCR fallback *)

Lemma page_texts_Ok (pages : list (result pystr)) (texts : list pystr) :
  page_texts pages = Ok texts <-> pages = map Ok texts.
Proof.
  revert texts. induction pages as [|[t|e] rest IH]; intros texts; simpl.
  - destruct texts; simpl; split; congruence.
  - destruct (page_texts rest) as [ts|e] eqn:E.
    + split.
      * intros [= <-]. simpl. f_equal. now apply IH.
      * destruct texts as [|t' ts']; simpl; [discriminate|].
        intros [= -> H]. apply IH in H. congruence.
    + split; [discriminate|].
      destruct texts as [|t' ts']; simpl; [discriminate|].
      intros [= -> H]. apply IH in H. congruence.
  - split; [discriminate|]. destruct texts; simpl; discriminate.
Qed.

Lemma read_pages_spec (pages : list (result pystr)) (text : pystr) :
  read_pages pages text =
  ([], match page_texts pages with
       | Ok texts => Ok (text ++ direct_text texts)
       | Raise e => Raise e
       end).
Proof.
  revert text. induction pages as [|[t|e] rest IH]; intros text; simpl.
  - unfold ret, direct_text. simpl. now rewrite app_nil_r.
  - unfold bind. rewrite IH. simpl.
    destruct (page_texts rest) as [ts|e]; [|reflexivity].
    unfold direct_text. simpl. destruct t as [|c t]; simpl; [reflexivity|].
    do 2 f_equal. rewrite <- app_assoc. reflexivity.
  - reflexivity.
Qed.

Lemma direct_text_blank (texts : list pystr) :
  blank (direct_text texts) = forallb blank texts.
Proof.
  unfold direct_text. induction texts as [|t ts IH]; [reflexivity|].
  simpl. destruct t as [|c t]; simpl; [exact IH|].
  rewrite !blank_app, IH. simpl. now rewrite andb_true_r, andb_assoc.
Qed.

Lemma ocr_images_events (images : list (result pystr)) (text : pystr) :
  Forall (fun ev => loader_event ev = true) (events (ocr_images images text)).
Proof.
  revert text. induction images as [|img rest IH]; intros text; simpl.
  - constructor.
  - step_events. apply IH.
Qed.

Lemma ocr_fallback_events (pdf_path : pystr) (f : File) (text : pystr) :
  exists rest,
    events (ocr_fallback pdf_path f text)
    = EvPrint (msg_using_ocr pdf_path) :: EvConvertFromPath pdf_path :: rest.
Proof.
  unfold ocr_fallback. rewrite events_bind. simpl.
  rewrite events_bind. simpl. eauto.
Qed.

(** The three ways [extract_text_from_pdf] can go. *)
Lemma extract_text_from_pdf_cases (pdf_path : pystr) (f : File) :
  extract_text_from_pdf pdf_path f =
  match f_pages f with
  | Raise e => ([EvPdfReader pdf_path], Raise e)
  | Ok pages =>
      match page_texts pages with
      | Raise e => ([EvPdfReader pdf_path], Raise e)
      | Ok texts =>
          if forallb blank texts then
            let text := direct_text texts in
            (EvPdfReader pdf_path :: events (ocr_fallback pdf_path f text),
             match outcome (ocr_fallback pdf_path f text) with
             | Ok text' => Ok (strip text')
             | Raise e => Raise e
             end)
          else ([EvPdfReader pdf_path], Ok (strip (direct_text texts)))
      end
  end.
Proof.
  unfold extract_text_from_pdf.
  destruct (f_pages f) as [pages|e]; [|reflexivity].
  unfold call. unfold bind at 1. rewrite read_pages_spec.
  destruct (page_texts pages) as [texts|e]; [|reflexivity].
  unfold bind at 1. simpl app.
  rewrite truthy_strip, negb_involutive, direct_text_blank.
  destruct (forallb blank texts); [|reflexivity].
  destruct (ocr_fallback pdf_path f (direct_text texts)) as [t [text'|e]];
    unfold bind; simpl; now rewrite ?app_nil_r.
Qed.

(** The direct read comes first; events of the fallback occur exactly when
    the reader answered every page with empty or white-space-only text; when
    some page has real text the only external call is the direct read. *)
Lemma pdf_direct_read_first (pdf_path : pystr) (f : File) :
  hd_error (events (extract_text_from_pdf pdf_path f))
    = Some (EvPdfReader pdf_path)
  /\ (existsb ocr_event (events (extract_text_from_pdf pdf_path f)) = true
      <-> exists texts,
            f_pages f = Ok (map Ok texts) /\ forallb blank texts = true)
  /\ (forall texts,
        f_pages f = Ok (map Ok texts) -> forallb blank texts = false ->
        extract_text_from_pdf pdf_path f
          = ([EvPdfReader pdf_path], Ok (strip (direct_text texts)))).
Proof.
  rewrite extract_text_from_pdf_cases.
  assert (Hmap : forall texts, page_texts (map Ok texts) = Ok texts)
    by (intros texts; now apply page_texts_Ok).
  destruct (f_pages f) as [pages|e].
  - destruct (page_texts pages) as [texts|e] eqn:Ht.
    + apply page_texts_Ok in Ht. subst pages.
      destruct (forallb blank texts) eqn:Hb.
      * destruct (ocr_fallback_events pdf_path f (direct_text texts))
          as (rest & Hev).
        cbv zeta. rewrite Hev. simpl.
        repeat split; eauto.
        intros texts' [= E]. apply (f_equal page_texts) in E.
        rewrite !Hmap in E. congruence.
      * simpl. repeat split; try discriminate.
        -- intros (texts' & [= E] & Hb'). apply (f_equal page_texts) in E.
           rewrite !Hmap in E. congruence.
        -- intros texts' [= E] _. apply (f_equal page_texts) in E.
           rewrite !Hmap in E. congruence.
    + simpl. repeat split; try discriminate.
      * intros (texts & [= ->] & _). rewrite Hmap in Ht. discriminate.
      * intros texts [= ->]. rewrite Hmap in Ht. discriminate.
  - simpl. repeat split; try discriminate.
    intros (texts & [=] & _).
Qed.

(** The OCR loop runs Hindi OCR on the images in turn, up to the first
    failure, and accumulates each recognised text with a newline. *)
Lemma ocr_images_spec (images : list (result pystr)) (text : pystr) :
  ocr_images images text
  = (repeat (EvImageToString (lit "hin")) (ocr_attempts images),
     match page_texts images with
     | Ok lines => Ok (text ++ ocr_text lines)
     | Raise e => Raise e
     end).
Proof.
  revert text. induction images as [|[l|e] rest IH]; intros text.
  - simpl. unfold ret, ocr_text. simpl. now rewrite app_nil_r.
  - simpl ocr_images. unfold call, bind. rewrite IH. simpl.
    destruct (page_texts rest) as [ls|e]; [|reflexivity].
    unfold ocr_text. simpl. now rewrite <- !app_assoc.
  - reflexivity.
Qed.

Lemma ocr_fallback_spec (pdf_path : pystr) (f : File) (text : pystr) :
  ocr_fallback pdf_path f text
  = (fallback_trace pdf_path f,
     match f_ocr f with
     | Ok images =>
         match page_texts images with
         | Ok lines => Ok (text ++ ocr_text lines)
         | Raise e => Raise e
         end
     | Raise e => Raise e
     end).
Proof.
  unfold ocr_fallback, fallback_trace, tell, call.
  destruct (f_ocr f) as [images|e]; [|reflexivity].
  unfold bind at 1 2. rewrite ocr_images_spec. reflexivity.
Qed.

(** C8.  A PDF is first read directly, page by page.  The OCR fallback runs
    exactly when the reader answered every page with empty or
    white-space-only text; it then rasterises the file once and runs OCR
    configured for Hindi on each image in turn, and the result is the
    stripped recognised text.  When some page has real text the only
    external call is the direct read: nothing is rasterised and no OCR of
    any kind is run. *)
Theorem pdf_ocr_iff_no_direct_text (pdf_path : pystr) (f : File) :
  hd_error (events (extract_text_from_pdf pdf_path f))
    = Some (EvPdfReader pdf_path)
  /\ (existsb ocr_event (events (extract_text_from_pdf pdf_path f)) = true
      <-> exists texts,
            f_pages f = Ok (map Ok texts) /\ forallb blank texts = true)
  /\ (forall texts,
        f_pages f = Ok (map Ok texts) -> forallb blank texts = false ->
        extract_text_from_pdf pdf_path f
          = ([EvPdfReader pdf_path], Ok (strip (direct_text texts))))
  /\ (forall texts,
        f_pages f = Ok (map Ok texts) -> forallb blank texts = true ->
        extract_text_from_pdf pdf_path f
        = (EvPdfReader pdf_path :: fallback_trace pdf_path f,
           match f_ocr f with
           | Ok images =>
               match page_texts images with
               | Ok lines => Ok (strip (ocr_text lines))
               | Raise e => Raise e
               end
           | Raise e => Raise e
           end)).
Proof.
  destruct (pdf_direct_read_first pdf_path f) as (Hhd & Hiff & Hdirect).
  split; [exact Hhd|]. split; [exact Hiff|]. split; [exact Hdirect|].
  intros texts Hp Hb. rewrite extract_text_from_pdf_cases, Hp.
  rewrite (proj2 (page_texts_Ok _ _) eq_refl), Hb. cbv zeta.
  rewrite ocr_fallback_spec. unfold events, outcome. simpl fst. simpl snd.
  f_equal. destruct (f_ocr f) as [images|e]; [|reflexivity].
  destruct (page_texts images) as [lines|e]; [|reflexivity].
  f_equal. apply strip_blank_prefix. now rewrite direct_text_blank.
Qed.

(** On the sample files: the scanned PDF is rasterised and read by Hindi
    OCR, image by image; the PDF with a text layer is only read directly. *)
Lemma pdf_ocr_iff_no_direct_text_witness :
  existsb ocr_event
    (events (extract_text_from_pdf Sample.folder Sample.scan_pdf)) = true
  /\ extract_text_from_pdf Sample.folder Sample.report_pdf
     = ([EvPdfReader Sample.folder], Ok (lit "Annual report"))
  /\ extract_text_from_pdf Sample.folder Sample.scan_pdf
     = ([EvPdfReader Sample.folder; EvPrint (msg_using_ocr Sample.folder);
         EvConvertFromPath Sample.folder;
         EvImageToString (lit "hin"); EvImageToString (lit "hin")],
        Ok (lit "line one")).
Proof.
  split; [|split].
  - apply (proj1 (proj2 (pdf_ocr_iff_no_direct_text
                           Sample.folder Sample.scan_pdf))).
    exists [[]; lit "  "]. split; reflexivity.
  - apply (proj1 (proj2 (proj2 (pdf_ocr_iff_no_direct_text
                                  Sample.folder Sample.report_pdf)))
             [[]; lit "Annual report"]); reflexivity.
  - apply (proj2 (proj2 (proj2 (pdf_ocr_iff_no_direct_text
                                  Sample.folder Sample.scan_pdf)))
             [[]; lit "  "]); reflexivity.
Defined.

(** ** The query function *)

(** C4.  Whenever a model invocation answers with an empty string the
    function returns a fixed placeholder: the apology when the retrieval
    chain is silent, and then the translator is not called; the
    translation-failure text when the translator is silent; otherwise the
    translation itself. *)
Theorem handle_user_input_placeholders (w : World) (user_query : pystr) :
  (w_qa_run w user_query = Ok [] ->
   handle_user_input w user_query = ([EvQaRun user_query], Ok msg_sorry))
  /\ (forall hindi,
        w_qa_run w user_query = Ok hindi -> hindi <> [] ->
        w_llm_invoke w (translation_prompt_of hindi) = Ok [] ->
        handle_user_input w user_query
        = ([EvQaRun user_query; EvLlmInvoke (translation_prompt_of hindi)],
           Ok msg_translation_failed))
  /\ (forall hindi english,
        w_qa_run w user_query = Ok hindi -> hindi <> [] ->
        w_llm_invoke w (translation_prompt_of hindi) = Ok english ->
        english <> [] ->
        handle_user_input w user_query
        = ([EvQaRun user_query; EvLlmInvoke (translation_prompt_of hindi)],
           Ok english)).
Proof.
  unfold handle_user_input, call. cbv zeta. repeat split.
  - intros ->. reflexivity.
  - intros hindi -> Hh Hl. unfold bind at 1.
    destruct hindi as [|c hindi]; [congruence|]. simpl negb. cbv iota.
    now rewrite Hl.
  - intros hindi english -> Hh Hl He. unfold bind at 1.
    destruct hindi as [|c hindi]; [congruence|]. simpl negb. cbv iota.
    rewrite Hl. destruct english; [congruence | reflexivity].
Qed.

Lemma handle_user_input_placeholders_witness :
  handle_user_input Sample.world_mute_chain Sample.question
    = ([EvQaRun Sample.question], Ok msg_sorry)
  /\ outcome (handle_user_input Sample.world_mute_translator Sample.question)
     = Ok msg_translation_failed
  /\ outcome (handle_user_input Sample.world Sample.question)
     = Ok (lit "Delhi").
Proof.
  split; [|split].
  - apply (proj1 (handle_user_input_placeholders
                    Sample.world_mute_chain Sample.question)).
    reflexivity.
  - rewrite (proj1 (proj2 (handle_user_input_placeholders
                             Sample.world_mute_translator Sample.question))
               [0x926; 0x93F; 0x932; 0x94D; 0x932; 0x940]%N);
      [reflexivity | reflexivity | discriminate | reflexivity].
  - rewrite (proj2 (proj2 (handle_user_input_placeholders
                             Sample.world Sample.question))
               [0x926; 0x93F; 0x932; 0x94D; 0x932; 0x940]%N (lit "Delhi"));
      [reflexivity | reflexivity | discriminate | reflexivity | discriminate].
Defined.

(** ** The routes *)

(** C6.  A POST whose [question] field is missing or empty renders the
    initial greeting page alone: no model is invoked and no answer is
    rendered. *)
Theorem index_post_without_question (w : World) (req : request) :
  req_method req = POST ->
  multidict_get (lit "question") (req_form req) = None
  \/ multidict_get (lit "question") (req_form req) = Some [] ->
  index w req = ([], Ok initial_page)
  /\ existsb qa_event (events (index w req)) = false.
Proof.
  intros Hm Hq.
  assert (E : index w req = ([], Ok initial_page)).
  { unfold index. rewrite Hm.
    assert (E : truthy_opt (multidict_get (lit "question") (req_form req))
                = false)
      by (destruct Hq as [-> | ->]; reflexivity).
    rewrite E, andb_false_r. reflexivity. }
  split; [exact E | now rewrite E].
Qed.

Lemma index_post_without_question_witness :
  index Sample.world Sample.post_without_question = ([], Ok initial_page)
  /\ index Sample.world Sample.post_empty_question = ([], Ok initial_page).
Proof.
  split.
  - apply (index_post_without_question Sample.world
             Sample.post_without_question); [reflexivity | left; reflexivity].
  - apply (index_post_without_question Sample.world
             Sample.post_empty_question); [reflexivity | right; reflexivity].
Defined.

Lemma farewell_contains_name (name : pystr) : substring name (farewell_for name).
Proof.
  unfold farewell_for.
  exists ([0x1F44B%N] ++ lit " Bye, "),
         (lit "! Have a great day! " ++ [0x1F60A%N]).
  now rewrite <- !app_assoc.
Qed.

(** C7.  [/exit?name=n] answers a JSON object whose only field is
    [farewell], a string in which [n] occurs. *)
Theorem exit_app_farewell_contains_name (req : request) (n : pystr) :
  multidict_get (lit "name") (req_args req) = Some n ->
  exists farewell,
    exit_app req = ([], Ok (Jsonify [(lit "farewell", farewell)]))
    /\ substring n farewell.
Proof.
  intros H. exists (farewell_for n). split.
  - unfold exit_app, multidict_get_default. now rewrite H.
  - apply farewell_contains_name.
Qed.

Lemma exit_app_farewell_contains_name_witness :
  exists farewell,
    exit_app Sample.exit_asha = ([], Ok (Jsonify [(lit "farewell", farewell)]))
    /\ substring (lit "Asha") farewell.
Proof.
  apply (exit_app_farewell_contains_name Sample.exit_asha (lit "Asha")).
  reflexivity.
Defined.

(** C10.  Without a [name] parameter [/exit] does not fail: the name
    defaults to [friend], which the farewell contains. *)
Theorem exit_app_default_name (req : request) :
  multidict_get (lit "name") (req_args req) = None ->
  exit_app req
    = ([], Ok (Jsonify [(lit "farewell", farewell_for (lit "friend"))]))
  /\ substring (lit "friend") (farewell_for (lit "friend")).
Proof.
  intros H. split.
  - unfold exit_app, multidict_get_default. now rewrite H.
  - apply farewell_contains_name.
Qed.

Lemma exit_app_default_name_witness :
  exit_app Sample.exit_bare
    = ([], Ok (Jsonify [(lit "farewell", farewell_for (lit "friend"))]))
  /\ substring (lit "friend") (farewell_for (lit "friend")).
Proof.
  apply (exit_app_default_name Sample.exit_bare). reflexivity.
Defined.

(** ** The load loop *)

Lemma extract_text_from_pdf_events (pdf_path : pystr) (f : File) :
  Forall (fun ev => loader_event ev = true)
    (events (extract_text_from_pdf pdf_path f)).
Proof.
  unfold extract_text_from_pdf. step_events.
  - rewrite read_pages_spec. constructor.
  - match goal with
    | |- context [negb (truthy (strip ?t))] =>
        destruct (negb (truthy (strip t))); [|constructor]
    end.
    unfold ocr_fallback. step_events. apply ocr_images_events.
Qed.

Lemma extract_text_from_docx_events (docx_path : pystr) (f : File) :
  Forall (fun ev => loader_event ev = true)
    (events (extract_text_from_docx docx_path f)).
Proof. unfold extract_text_from_docx. step_events. Qed.

Lemma load_one_events (folder : pystr) (all_text : list pystr) (f : File) :
  Forall (fun ev => loader_event ev = true)
    (events (load_one folder all_text f)).
Proof.
  unfold load_one.
  destruct (endswith (lit ".pdf") (f_name f));
    [|destruct (endswith (lit ".docx") (f_name f))].
  - apply events_bind_Forall; [apply extract_text_from_pdf_events|].
    intros s _. destruct (truthy s); step_events.
  - apply events_bind_Forall; [apply extract_text_from_docx_events|].
    intros s _. destruct (truthy s); step_events.
  - constructor.
Qed.

Lemma load_loop_events (folder : pystr) (files : list File) (all_text : list pystr) :
  Forall (fun ev => loader_event ev = true)
    (events (load_loop folder files all_text)).
Proof.
  revert all_text. induction files as [|f rest IH]; intros all_text; simpl.
  - constructor.
  - apply events_bind_Forall; [apply load_one_events | intros; apply IH].
Qed.

(** One turn of the loop: the extractor's exception passes through, an
    empty text leaves the corpus as it was, any other text is appended. *)
Lemma load_one_outcome (folder : pystr) (all_text : list pystr) (f : File) :
  outcome (load_one folder all_text f) =
  match outcome (extraction folder f) with
  | Ok s => Ok (if truthy s then all_text ++ [s] else all_text)
  | Raise e => Raise e
  end.
Proof.
  unfold load_one, extraction.
  destruct (endswith (lit ".pdf") (f_name f));
    [|destruct (endswith (lit ".docx") (f_name f))]; [| |reflexivity];
    rewrite outcome_bind;
    match goal with |- context [outcome ?c] => destruct (outcome c) as [s|e] end;
    try reflexivity; destruct (truthy s); reflexivity.
Qed.

Lemma load_loop_returns (folder : pystr) (files : list File) (all_text : list pystr) :
  Forall (fun f => returns (extraction folder f)) files ->
  outcome (load_loop folder files all_text)
  = Ok (all_text ++ filter truthy (map (extracted_text_of folder) files)).
Proof.
  intros H. revert all_text.
  induction H as [|f rest [s Hs] _ IH]; intros all_text; simpl.
  - now rewrite app_nil_r.
  - rewrite outcome_bind, load_one_outcome. unfold extracted_text_of.
    rewrite Hs, IH. destruct (truthy s); [|reflexivity].
    now rewrite <- app_assoc.
Qed.

Lemma load_loop_raises (folder : pystr) (before : list File) (f : File)
    (after : list File) (e : exn) (all_text : list pystr) :
  Forall (fun f => returns (extraction folder f)) before ->
  outcome (extraction folder f) = Raise e ->
  outcome (load_loop folder (before ++ f :: after) all_text) = Raise e.
Proof.
  intros H Hf. revert all_text.
  induction H as [|g rest [s Hs] _ IH]; intros all_text; simpl.
  - now rewrite outcome_bind, load_one_outcome, Hf.
  - rewrite outcome_bind, load_one_outcome, Hs. apply IH.
Qed.

(** Either every extraction returns, or the loop stops on an exception. *)
Lemma load_loop_cases (folder : pystr) (files : list File) (all_text : list pystr) :
  Forall (fun f => returns (extraction folder f)) files
  \/ exists e, outcome (load_loop folder files all_text) = Raise e.
Proof.
  revert all_text. induction files as [|f rest IH]; intros all_text.
  - left. constructor.
  - destruct (outcome (extraction folder f)) as [s|e] eqn:Hf.
    + destruct (IH (if truthy s then all_text ++ [s] else all_text))
        as [Hall | [e He]].
      * left. constructor; [now exists s | exact Hall].
      * right. exists e. simpl.
        now rewrite outcome_bind, load_one_outcome, Hf.
    + right. exists e. simpl. now rewrite outcome_bind, load_one_outcome, Hf.
Qed.

(** C3.  A file whose extraction returns no text is left out of the corpus
    and the loop goes on; an exception raised while a file is extracted is
    not caught and ends the loop. *)
Theorem load_loop_skips_empty_texts (folder : pystr) (files : list File) :
  (Forall (fun f => returns (extraction folder f)) files ->
   outcome (load_loop folder files [])
   = Ok (filter truthy (map (extracted_text_of folder) files)))
  /\ (forall before f after e,
        files = before ++ f :: after ->
        Forall (fun f => returns (extraction folder f)) before ->
        outcome (extraction folder f) = Raise e ->
        outcome (load_loop folder files []) = Raise e).
Proof.
  split.
  - intros H. now rewrite load_loop_returns.
  - intros before f after e -> Hb Hf. now apply load_loop_raises.
Qed.

Lemma load_loop_skips_empty_texts_witness :
  outcome (load_loop Sample.folder
             [Sample.empty_docx; Sample.readme; Sample.report_pdf] [])
    = Ok [lit "Annual report"]
  /\ outcome (load_loop Sample.folder
                [Sample.empty_docx; Sample.corrupt_pdf; Sample.report_pdf] [])
     = Raise (LibraryError "PdfReadError").
Proof.
  split.
  - rewrite (proj1 (load_loop_skips_empty_texts Sample.folder
               [Sample.empty_docx; Sample.readme; Sample.report_pdf])).
    + reflexivity.
    + repeat constructor; eexists; reflexivity.
  - apply (proj2 (load_loop_skips_empty_texts Sample.folder
               [Sample.empty_docx; Sample.corrupt_pdf; Sample.report_pdf])
             [Sample.empty_docx] Sample.corrupt_pdf [Sample.report_pdf]).
    + reflexivity.
    + repeat constructor; eexists; reflexivity.
    + reflexivity.
Defined.

(** A file that cannot be parsed stops the whole load, although the file
    next to it is readable. *)
Lemma load_loop_aborts_on_unreadable_file :
  outcome (extraction Sample.folder Sample.corrupt_pdf)
    = Raise (LibraryError "PdfReadError")
  /\ returns (extraction Sample.folder Sample.notes_docx)
  /\ outcome (load_loop Sample.folder [Sample.corrupt_pdf; Sample.notes_docx] [])
     = Raise (LibraryError "PdfReadError")
  /\ ~ returns (load_loop Sample.folder [Sample.corrupt_pdf; Sample.notes_docx] [])
  /\ outcome (module_main Sample.world_corrupt)
     = Raise (LibraryError "PdfReadError").
Proof.
  repeat split.
  - eexists. reflexivity.
  - intros [a H]. discriminate H.
Qed.

(** ** Start-up *)

Lemma check_api_key_missing (w : World) :
  key_missing w -> check_api_key w = ([], Raise (ValueError msg_no_key)).
Proof. unfold check_api_key. intros [-> | ->]; reflexivity. Qed.

Lemma check_api_key_present (w : World) :
  ~ key_missing w -> exists k, check_api_key w = ([], Ok k).
Proof.
  unfold key_missing, check_api_key. intros H.
  destruct (w_api_key w) as [[|c k]|].
  - exfalso. apply H. now right.
  - now exists (c :: k).
  - exfalso. apply H. now left.
Qed.

Lemma load_documents_events (w : World) :
  Forall (fun ev => loader_event ev = true) (events (load_documents w)).
Proof.
  unfold load_documents. apply events_bind_Forall.
  - unfold list_documents. destruct (w_documents w) as [[|entries]|]; constructor.
  - intros files _. apply events_bind_Forall; [apply load_loop_events|].
    intros all_text _. destruct (negb (nonempty all_text)); step_events.
Qed.

Lemma loader_not_later (t : trace) :
  Forall (fun ev => loader_event ev = true) t ->
  Forall (fun ev => later_stage ev = false) t.
Proof. apply Forall_impl. now intros []. Qed.

(** When loading fails nothing else of the module runs. *)
Lemma module_main_load_fails (w : World) (e : exn) :
  ~ key_missing w -> outcome (load_documents w) = Raise e ->
  module_main w = (events (load_documents w), Raise e).
Proof.
  intros Hk He. destruct (check_api_key_present w Hk) as [k Hc].
  unfold module_main, startup. rewrite Hc.
  destruct (load_documents w) as [t r]. simpl in He. subst r. reflexivity.
Qed.

Lemma load_documents_listed (w : World) (files : list File) :
  w_documents w = Some (FsDir files) ->
  load_documents w =
  (all_text <- load_loop (data_folder w) files [] ;;
   if negb (nonempty all_text) then raise (ValueError msg_no_content)
   else
     tell (EvPrint ([CHECK] ++ lit " All PDFs & DOCX files loaded successfully!")) ;;;
     ret (join [NL] all_text)).
Proof.
  intros H. unfold load_documents, list_documents. rewrite H.
  unfold ret at 1. unfold bind at 1.
  destruct (bind _ _). reflexivity.
Qed.

Lemma no_text_extracted (folder : pystr) (files : list File) :
  (forall f, In f files -> ~ yields_text folder f) ->
  filter truthy (map (extracted_text_of folder) files) = [].
Proof.
  induction files as [|f rest IH]; intros H; [reflexivity|].
  simpl. rewrite IH by (intros g Hg; apply H; now right).
  unfold extracted_text_of.
  destruct (outcome (extraction folder f)) as [[|c s]|e] eqn:E; try reflexivity.
  exfalso. apply (H f); [now left|]. exists (c :: s). now split.
Qed.

(** C1.  The three fatal start-up conditions.  Without a credential the
    module stops at once with a [ValueError]; without the document folder
    with a [FileNotFoundError] naming it; and when no file of the folder
    yields text it stops with an exception before any later stage
    (chunking, embedding, indexing, serving) has run, which is the
    [ValueError] "No valid content found" when every extraction returned. *)
Theorem fatal_startup_conditions (w : World) :
  (key_missing w ->
   module_main w = ([], Raise (ValueError msg_no_key)))
  /\ (~ key_missing w -> w_documents w = None ->
      module_main w = ([], Raise (FileNotFoundError (msg_no_folder w))))
  /\ (forall files,
        ~ key_missing w -> w_documents w = Some (FsDir files) ->
        (forall f, In f files -> ~ yields_text (data_folder w) f) ->
        (exists e, outcome (module_main w) = Raise e)
        /\ Forall (fun ev => later_stage ev = false) (events (module_main w))
        /\ (Forall (fun f => returns (extraction (data_folder w) f)) files ->
            outcome (module_main w) = Raise (ValueError msg_no_content))).
Proof.
  split; [|split].
  - intros Hk. unfold module_main, startup.
    now rewrite (check_api_key_missing w Hk).
  - intros Hk Hd. rewrite (module_main_load_fails w (FileNotFoundError (msg_no_folder w)) Hk);
      unfold load_documents, list_documents; rewrite Hd; reflexivity.
  - intros files Hk Hd Hno.
    assert (Hall : Forall (fun f => returns (extraction (data_folder w) f)) files ->
                   outcome (load_documents w) = Raise (ValueError msg_no_content)).
    { intros Hret. rewrite (load_documents_listed w files Hd), outcome_bind.
      rewrite (load_loop_returns _ _ [] Hret), no_text_extracted by exact Hno.
      reflexivity. }
    assert (Hex : exists e, outcome (load_documents w) = Raise e).
    { destruct (load_loop_cases (data_folder w) files []) as [Hret | [e He]].
      - eexists. now apply Hall.
      - exists e. now rewrite (load_documents_listed w files Hd), outcome_bind, He. }
    destruct Hex as [e He]. rewrite (module_main_load_fails w e Hk He).
    split; [now exists e|]. split.
    + apply loader_not_later, load_documents_events.
    + intros Hret. specialize (Hall Hret). rewrite He in Hall.
      injection Hall as ->. reflexivity.
Qed.

Lemma fatal_startup_conditions_witness :
  module_main Sample.world_no_key = ([], Raise (ValueError msg_no_key))
  /\ module_main Sample.world_no_folder
     = ([], Raise (FileNotFoundError
                     (lit "Folder not found: /srv/app/data_files/documents")))
  /\ outcome (module_main Sample.world_no_text)
     = Raise (ValueError msg_no_content).
Proof.
  assert (Hkey : forall docs qa llm,
            ~ key_missing (Sample.world_with Sample.key docs qa llm))
    by (intros docs qa llm [H | H]; discriminate H).
  split; [|split].
  - apply (proj1 (fatal_startup_conditions Sample.world_no_key)).
    left. reflexivity.
  - apply (proj1 (proj2 (fatal_startup_conditions Sample.world_no_folder)));
      [apply Hkey | reflexivity].
  - apply (proj2 (proj2 (fatal_startup_conditions Sample.world_no_text))
             [Sample.readme; Sample.empty_docx]);
      [apply Hkey | reflexivity | |].
    + intros f [<- | [<- | []]] (s & Hs & Hne); apply Hne;
        injection Hs as <-; reflexivity.
    + repeat constructor; eexists; reflexivity.
Defined.

Lemma build_index_Ok (w : World) (full_text : pystr) (chunks : list pystr) :
  outcome (build_index w full_text) = Ok chunks ->
  Splitter.split_text splitter full_text = Ok chunks
  /\ w_faiss w chunks = Ok tt
  /\ In (EvFaissFromTexts (length chunks)) (events (build_index w full_text)).
Proof.
  unfold build_index.
  destruct (Splitter.split_text splitter full_text) as [cs|e];
    [|rewrite outcome_bind; discriminate].
  do 4 (rewrite outcome_bind, events_bind; simpl).
  destruct (w_faiss w cs) as [[]|e] eqn:Hf; [|discriminate].
  simpl. intros [= <-]. repeat split; [exact Hf|]. do 3 right. now left.
Qed.

Lemma build_index_events (w : World) (full_text : pystr) :
  Forall (fun ev => app_run_event ev = false) (events (build_index w full_text)).
Proof. unfold build_index. step_events. Qed.

Lemma startup_events (w : World) :
  Forall (fun ev => app_run_event ev = false) (events (startup w)).
Proof.
  unfold startup. apply events_bind_Forall.
  - unfold check_api_key.
    destruct (w_api_key w) as [[|c k]|]; constructor.
  - intros _ _. apply events_bind_Forall.
    + generalize (load_documents_events w). apply Forall_impl. now intros [].
    + intros full_text _. apply events_bind_Forall;
        [apply build_index_events | intros; step_events].
Qed.

(** [_name_] is bound neither in the module nor among the built-ins. *)
Lemma main_guard_NameError (w : World) :
  main_guard w = ([], Raise (NameError msg_name_error)).
Proof. reflexivity. Qed.

(** When start-up completes the index has been built. *)
Lemma startup_Ok_indexed (w : World) (chunks : list pystr) :
  outcome (startup w) = Ok chunks ->
  In (EvFaissFromTexts (length chunks)) (events (startup w)).
Proof.
  unfold startup. rewrite outcome_bind, events_bind.
  destruct (outcome (check_api_key w)) as [k|e]; [|discriminate].
  rewrite outcome_bind, events_bind.
  destruct (outcome (load_documents w)) as [full_text|e]; [|discriminate].
  rewrite outcome_bind, events_bind.
  destruct (outcome (build_index w full_text)) as [cs|e] eqn:Hb; [|discriminate].
  rewrite outcome_bind. simpl. intros [= <-].
  apply in_or_app. right. apply in_or_app. right. apply in_or_app. left.
  now apply build_index_Ok.
Qed.

(** C9.  The guard reads the unbound name [_name_]: it raises [NameError],
    so the development server is never started, whatever the environment;
    and when start-up (loading, chunking, indexing) completes, running the
    module ends with that [NameError] right after it. *)
Theorem main_guard_raises_name_error (w : World) :
  main_guard w = ([], Raise (NameError msg_name_error))
  /\ Forall (fun ev => app_run_event ev = false) (events (module_main w))
  /\ (forall chunks,
        outcome (startup w) = Ok chunks ->
        module_main w = (events (startup w), Raise (NameError msg_name_error))
        /\ In (EvFaissFromTexts (length chunks)) (events (module_main w))).
Proof.
  split; [apply main_guard_NameError|]. split.
  - unfold module_main. apply events_bind_Forall; [apply startup_events|].
    intros chunks _. rewrite main_guard_NameError. constructor.
  - intros chunks H.
    assert (E : module_main w
                = (events (startup w), Raise (NameError msg_name_error))).
    { unfold module_main. rewrite (M_eta (startup w)), H.
      unfold bind. rewrite main_guard_NameError. simpl.
      now rewrite app_nil_r. }
    split; [exact E|]. rewrite E. now apply startup_Ok_indexed.
Qed.

Lemma main_guard_raises_name_error_witness :
  module_main Sample.world
    = (events (startup Sample.world), Raise (NameError msg_name_error))
  /\ In (EvFaissFromTexts 1) (events (module_main Sample.world)).
Proof.
  apply (proj2 (proj2 (main_guard_raises_name_error Sample.world))
           [[0x930; 0x93E; 0x91C; 0x927; 0x93E; 0x928; 0x940; SP;
             0x926; 0x93F; 0x932; 0x94D; 0x932; 0x940; SP; 0x939; 0x948;
             NL]%N ++ lit "second paragraph" ++ [NL] ++ lit "line one"]).
  vm_compute. reflexivity.
Defined.

(** ** The chunker *)

Module SplitterFacts.

Import Splitter.
Local Open Scope Z_scope.

Lemma len_app (a b : pystr) : len (a ++ b) = len a + len b.
Proof. unfold len. rewrite length_app. lia. Qed.

Lemma len_nonneg (s : pystr) : 0 <= len s.
Proof. unfold len. lia. Qed.

Lemma startswith_skipn (p text : pystr) :
  startswith p text = true -> text = p ++ skipn (length p) text.
Proof.
  revert text. induction p as [|a p IH]; intros [|b text]; simpl;
    try congruence.
  unfold char_eqb. rewrite andb_true_iff, N.eqb_eq.
  intros [-> H]. f_equal. now apply IH.
Qed.

Lemma join_cons (sep p : pystr) (ps : list pystr) :
  join sep (p :: ps) = p ++ concat (map (fun q => sep ++ q) ps).
Proof.
  revert p. induction ps as [|q ps IH]; intros p.
  - simpl. now rewrite app_nil_r.
  - change (join sep (p :: q :: ps)) with (p ++ sep ++ join sep (q :: ps)).
    rewrite IH. simpl. now rewrite <- app_assoc.
Qed.

Lemma join_nil_sep (parts : list pystr) : join [] parts = concat parts.
Proof. destruct parts as [|p ps]; [reflexivity|]. now rewrite join_cons, map_id. Qed.

Lemma re_split_nonempty (fuel : nat) (sep cur text : pystr) :
  re_split fuel sep cur text <> [].
Proof.
  revert cur text.
  induction fuel as [|fuel IH]; intros cur [|c rest]; simpl; try discriminate.
  destruct (startswith sep (c :: rest)); [discriminate | apply IH].
Qed.

(** Joining the pieces with the separator gives the text back, whatever
    the fuel. *)
Lemma re_split_join (fuel : nat) (sep cur text : pystr) :
  join sep (re_split fuel sep cur text) = rev cur ++ text.
Proof.
  revert cur text. induction fuel as [|fuel IH]; intros cur [|c rest]; simpl;
    try now rewrite ?app_nil_r.
  destruct (startswith sep (c :: rest)) eqn:Hs.
  - rewrite join_cons.
    pose proof (IH [] (skipn (length sep) (c :: rest))) as H.
    destruct (re_split fuel sep [] (skipn (length sep) (c :: rest)))
      as [|q qs] eqn:E; [now apply re_split_nonempty in E|].
    rewrite join_cons in H. simpl map. simpl concat.
    rewrite <- app_assoc, H. simpl rev. simpl app at 2.
    now rewrite <- (startswith_skipn _ _ Hs).
  - rewrite IH. simpl. now rewrite <- app_assoc.
Qed.

Lemma skipn_shorter (sep text : pystr) :
  truthy sep = true -> startswith sep text = true -> text <> [] ->
  (length (skipn (length sep) text) < length text)%nat.
Proof.
  intros Hsep Hs Ht. apply startswith_skipn in Hs.
  destruct sep as [|a sep]; [discriminate|].
  rewrite Hs at 2. rewrite length_app. simpl. lia.
Qed.

(** The fuel given to [re_split] is enough: more fuel changes nothing. *)
Lemma re_split_fuel (fuel1 fuel2 : nat) (sep cur text : pystr) :
  truthy sep = true ->
  (length text <= fuel1)%nat -> (length text <= fuel2)%nat ->
  re_split fuel1 sep cur text = re_split fuel2 sep cur text.
Proof.
  intros Hsep. revert fuel2 cur text.
  induction fuel1 as [|fuel1 IH]; intros [|fuel2] cur [|c rest] H1 H2;
    simpl in *; try reflexivity; try lia.
  destruct (startswith sep (c :: rest)) eqn:Hs.
  - f_equal.
    pose proof (skipn_shorter sep (c :: rest) Hsep Hs) as Hlt.
    simpl length in Hlt. apply IH; assert (c :: rest <> []) by discriminate;
      specialize (Hlt H); lia.
  - apply IH; lia.
Qed.

Lemma concat_filter_truthy (l : list pystr) : concat (filter truthy l) = concat l.
Proof.
  induction l as [|[|c s] l IH]; simpl; [reflexivity | exact IH |].
  now rewrite IH.
Qed.

(** The pieces, in order, make up the text. *)
Lemma split_with_regex_concat (text separator : pystr) :
  concat (_split_text_with_regex text separator) = text.
Proof.
  unfold _split_text_with_regex. rewrite concat_filter_truthy.
  destruct (truthy separator).
  - pose proof (re_split_join (length text) separator [] text) as H.
    destruct (re_split (length text) separator [] text) as [|s0 rest];
      [exact H|].
    rewrite join_cons in H. exact H.
  - induction text as [|c text IH]; simpl; [reflexivity | now rewrite IH].
Qed.

Lemma split_chars_len (text : pystr) :
  Forall (fun s => len s = 1) (_split_text_with_regex text []).
Proof.
  unfold _split_text_with_regex. simpl.
  induction text as [|c text IH]; simpl; constructor; [reflexivity | exact IH].
Qed.


Lemma sep_len_nil (b : bool) : (if b then len [] else 0) = 0.
Proof. now destruct b. Qed.

Lemma len_nil : len [] = 0.
Proof. reflexivity. Qed.

Lemma len_concat_cons (d : pystr) (l : list pystr) :
  len (concat (d :: l)) = len d + len (concat l).
Proof. simpl. apply len_app. Qed.

Lemma len_concat_snoc (l : list pystr) (d : pystr) :
  len (concat (l ++ [d])) = len (concat l) + len d.
Proof. rewrite concat_app, len_app. simpl. now rewrite app_nil_r. Qed.

Lemma pop_front_eq (cfg : config) (_len total : Z) (current_doc : list pystr) :
  pop_front cfg [] _len total current_doc =
  if (total >? chunk_overlap cfg)
     || ((total + _len >? chunk_size cfg) && (total >? 0))
  then
    match current_doc with
    | [] => Raise (IndexError (lit "list index out of range"))
    | d0 :: rest => pop_front cfg [] _len (total - len d0) rest
    end
  else Ok (total, current_doc).
Proof.
  destruct current_doc as [|d0 rest]; simpl;
    now rewrite ?sep_len_nil, ?Z.add_0_r.
Qed.

(** The inner loop of the merge never indexes an empty window: it returns
    a tail of the window that leaves room for the incoming piece. *)
Lemma pop_front_spec (cfg : config) (_len : Z) (current_doc : list pystr) :
  0 <= chunk_overlap cfg ->
  exists dropped kept,
    pop_front cfg [] _len (len (concat current_doc)) current_doc
      = Ok (len (concat kept), kept)
    /\ current_doc = dropped ++ kept
    /\ (len (concat kept) + _len <= chunk_size cfg \/ len (concat kept) = 0).
Proof.
  intros Hov. induction current_doc as [|d0 rest IH]; rewrite pop_front_eq.
  - exists [], []. simpl concat. rewrite len_nil.
    replace (0 >? chunk_overlap cfg) with false by (symmetry; lia).
    rewrite andb_false_r. simpl. auto.
  - destruct ((len (concat (d0 :: rest)) >? chunk_overlap cfg)
              || (len (concat (d0 :: rest)) + _len >? chunk_size cfg)
                 && (len (concat (d0 :: rest)) >? 0)) eqn:E.
    + destruct IH as (dropped & kept & Hp & Hd & Hk).
      exists (d0 :: dropped), kept.
      replace (len (concat (d0 :: rest)) - len d0) with (len (concat rest))
        by (rewrite len_concat_cons; lia).
      rewrite Hp, Hd. auto.
    + exists [], (d0 :: rest). split; [reflexivity|]. split; [reflexivity|].
      apply orb_false_iff in E. destruct E as [_ E].
      apply andb_false_iff in E.
      pose proof (len_nonneg (concat (d0 :: rest))).
      destruct E as [E | E]; [left | right]; lia.
Qed.


Section MergeFacts.

Variable cfg : config.
Variable text : pystr.
Hypothesis overlap_nonneg : 0 <= chunk_overlap cfg.

Lemma good_chunk_strip (s : pystr) :
  substring s text -> len s <= chunk_size cfg -> good_chunk cfg text (strip s).
Proof.
  intros Hs Hl. split.
  - eapply substring_trans; [apply strip_substring | exact Hs].
  - pose proof (strip_length s). unfold len in *. lia.
Qed.

Lemma emit_good (docs current_doc : list pystr) :
  Forall (good_chunk cfg text) docs ->
  substring (concat current_doc) text ->
  len (concat current_doc) <= chunk_size cfg ->
  Forall (good_chunk cfg text) (emit [] docs current_doc).
Proof.
  intros Hd Hs Hl. unfold emit, _join_docs. rewrite join_nil_sep.
  destruct (truthy (strip (concat current_doc))); [|exact Hd].
  apply Forall_app. split; [exact Hd|].
  constructor; [now apply good_chunk_strip | constructor].
Qed.

Lemma merge_loop_eq (d : pystr) (rest docs current_doc : list pystr) (total : Z) :
  merge_loop cfg [] (d :: rest) docs current_doc total =
  (st <-r
     (if (total + len d >? chunk_size cfg) && nonempty current_doc then
        p <-r pop_front cfg [] (len d) total current_doc ;;
        Ok (emit [] docs current_doc, snd p, fst p)
      else Ok (docs, current_doc, total)) ;;
   let '(docs1, current_doc1, total1) := st in
   merge_loop cfg [] rest docs1 (current_doc1 ++ [d]) (total1 + len d)).
Proof.
  simpl. rewrite sep_len_nil, Z.add_0_r.
  destruct ((total + len d >? chunk_size cfg) && nonempty current_doc).
  - destruct (pop_front cfg [] (len d) total current_doc) as [[t k]|e];
      simpl; [|reflexivity].
    now rewrite sep_len_nil, Z.add_0_r.
  - simpl. now rewrite sep_len_nil, Z.add_0_r.
Qed.

(** The merge returns, and each of its chunks is a stripped window of
    consecutive pieces no longer than the maximum. *)
Lemma merge_loop_good (splits docs current_doc : list pystr) :
  Forall (fun d => len d <= chunk_size cfg) splits ->
  Forall (good_chunk cfg text) docs ->
  len (concat current_doc) <= chunk_size cfg ->
  substring (concat current_doc ++ concat splits) text ->
  exists out,
    merge_loop cfg [] splits docs current_doc (len (concat current_doc)) = Ok out
    /\ Forall (good_chunk cfg text) out.
Proof.
  intros Hsp. revert docs current_doc.
  induction Hsp as [|d rest Hd _ IH]; intros docs current_doc Hdocs Hl Hs.
  - simpl merge_loop. eexists. split; [reflexivity|].
    apply emit_good; auto. simpl in Hs. now rewrite app_nil_r in Hs.
  - rewrite merge_loop_eq.
    destruct ((len (concat current_doc) + len d >? chunk_size cfg)
              && nonempty current_doc) eqn:E.
    + destruct (pop_front_spec cfg (len d) current_doc overlap_nonneg)
        as (dropped & kept & Hp & Hc & Hk).
      rewrite Hp. simpl rbind. cbv beta iota. simpl fst. simpl snd.
      rewrite <- len_concat_snoc. apply IH.
      * apply emit_good; auto.
        eapply substring_trans; [|exact Hs]. apply substring_app_l, substring_refl.
      * rewrite len_concat_snoc. destruct Hk as [Hk | Hk]; lia.
      * eapply substring_trans; [|exact Hs]. subst current_doc.
        rewrite !concat_app. simpl concat. rewrite app_nil_r, <- !app_assoc.
        apply substring_app_r, substring_refl.
    + simpl rbind. cbv beta iota. rewrite <- len_concat_snoc. apply IH.
      * exact Hdocs.
      * rewrite len_concat_snoc. apply andb_false_iff in E.
        destruct E as [E | E]; [lia|].
        destruct current_doc; [|discriminate]. simpl concat. rewrite len_nil. lia.
      * rewrite concat_app. simpl concat. simpl in Hs.
        now rewrite app_nil_r, <- app_assoc.
Qed.

Lemma merge_splits_good (splits : list pystr) :
  Forall (fun d => len d <= chunk_size cfg) splits ->
  0 <= chunk_size cfg ->
  substring (concat splits) text ->
  exists out,
    _merge_splits cfg [] splits = Ok out /\ Forall (good_chunk cfg text) out.
Proof.
  intros Hsp Hsz Hs. unfold _merge_splits.
  change 0 with (len (concat [])) at 1.
  apply merge_loop_good; auto. 
Qed.

End MergeFacts.


Section SplitFacts.

Variable cfg : config.
Hypothesis size_gt_1 : 1 < chunk_size cfg.
Hypothesis overlap_nonneg : 0 <= chunk_overlap cfg.

Lemma good_chunk_within (s text chunk : pystr) :
  substring s text -> good_chunk cfg s chunk -> good_chunk cfg text chunk.
Proof.
  intros Hs [Hc Hl]. split; [|exact Hl]. now apply substring_trans with s.
Qed.

Lemma merge_good_splits (text : pystr) (_good_splits : list pystr) :
  Forall (fun s => len s < chunk_size cfg) _good_splits ->
  substring (concat _good_splits) text ->
  exists out,
    _merge_splits cfg [] _good_splits = Ok out
    /\ Forall (good_chunk cfg text) out.
Proof.
  intros Hg Hs. apply merge_splits_good; auto; [|lia].
  revert Hg. apply Forall_impl. intros; lia.
Qed.

(** The splitting loop returns good chunks, provided the recursive splitter
    does on each long piece, or no piece is long when there is no separator
    left to split it with. *)
Lemma split_loop_good (text : pystr) (new_separators : list pystr)
    (recur : pystr -> result (list pystr))
    (splits _good_splits final_chunks : list pystr) :
  (nonempty new_separators = true ->
   forall s, exists chunks,
     recur s = Ok chunks /\ Forall (good_chunk cfg s) chunks) ->
  (nonempty new_separators = false ->
   Forall (fun s => len s < chunk_size cfg) splits) ->
  Forall (fun s => len s < chunk_size cfg) _good_splits ->
  Forall (good_chunk cfg text) final_chunks ->
  substring (concat _good_splits ++ concat splits) text ->
  exists out,
    split_loop cfg new_separators recur splits _good_splits final_chunks = Ok out
    /\ Forall (good_chunk cfg text) out.
Proof.
  intros Hrec. revert _good_splits final_chunks.
  induction splits as [|s rest IH]; intros good final Hlast Hg Hf Hs.
  - simpl split_loop. simpl in Hs. rewrite app_nil_r in Hs.
    destruct (nonempty good); [|now exists final].
    destruct (merge_good_splits text good Hg Hs) as (merged & -> & Hm).
    simpl. eexists. split; [reflexivity|]. apply Forall_app. now split.
  - simpl split_loop. simpl concat in Hs.
    assert (Hrest : nonempty new_separators = false ->
                    Forall (fun s => len s < chunk_size cfg) rest)
      by (intros H; specialize (Hlast H); now inversion Hlast).
    destruct (len s <? chunk_size cfg) eqn:Hlen.
    + apply IH; auto.
      * apply Forall_app. split; [exact Hg|]. constructor; [lia | constructor].
      * rewrite concat_app. simpl concat. now rewrite app_nil_r, <- app_assoc.
    + assert (Hgood : substring (concat good) text)
        by (eapply substring_trans; [|exact Hs];
            apply substring_app_l, substring_refl).
      assert (Hs_in : substring s text)
        by (eapply substring_trans; [|exact Hs];
            apply substring_app_r, substring_app_l, substring_refl).
      assert (Hf1 : exists final1,
                 (if nonempty good then
                    merged <-r _merge_splits cfg [] good ;; Ok (final ++ merged)
                  else Ok final) = Ok final1
                 /\ Forall (good_chunk cfg text) final1).
      { destruct (nonempty good); [|now exists final].
        destruct (merge_good_splits text good Hg Hgood) as (merged & -> & Hm).
        simpl. eexists. split; [reflexivity|]. apply Forall_app. now split. }
      destruct Hf1 as (final1 & -> & Hfinal1). simpl rbind at 1.
      destruct (nonempty new_separators) eqn:Hne.
      * destruct (Hrec eq_refl s) as (other & -> & Hother).
        simpl rbind. apply IH; auto.
        -- apply Forall_app. split; [exact Hfinal1|].
           revert Hother. apply Forall_impl. intros c.
           now apply good_chunk_within.
        -- simpl. eapply substring_trans; [|exact Hs].
           apply substring_app_r, substring_app_r, substring_refl.
      * specialize (Hlast eq_refl). inversion Hlast; subst. lia.
Qed.

Lemma choose_spec (init : list pystr) (text dflt : pystr) :
  (choose (init ++ [[]]) text dflt = ([], []))
  \/ exists (separator : pystr) (init' : list pystr),
       choose (init ++ [[]]) text dflt = (separator, init' ++ [[]])
       /\ truthy separator = true
       /\ (length init' < length init)%nat.
Proof.
  induction init as [|s init IH]; [now left|].
  simpl. destruct s as [|c s]; [now left|]. simpl negb. cbv iota.
  destruct (contains (c :: s) text).
  - right. exists (c :: s), init.
    split; [reflexivity|]. split; [reflexivity|].
    unfold pystr in *. simpl. lia.
  - destruct IH as [IH | (separator & init' & IH & Ht & Hl)]; [now left|].
    right. exists separator, init'.
    split; [exact IH|]. split; [exact Ht|].
    unfold pystr in *. simpl. lia.
Qed.

(** With a ladder that ends in the empty separator the recursive splitter
    returns, within the depth the ladder allows, chunks that occur in the
    text and respect the maximum size. *)
Lemma _split_text_good (fuel : nat) (init : list pystr) (text : pystr) :
  (length init < fuel)%nat ->
  exists chunks,
    _split_text cfg fuel text (init ++ [[]]) = Ok chunks
    /\ Forall (good_chunk cfg text) chunks.
Proof.
  revert init text. induction fuel as [|fuel IH]; intros init text Hfuel; [lia|].
  simpl _split_text. rewrite rev_app_distr. simpl rev. simpl app at 1. cbv iota.
  destruct (choose_spec init text [])
    as [-> | (separator & init' & -> & Ht & Hl)].
  - apply split_loop_good; auto; try constructor.
    + discriminate.
    + intros _. generalize (split_chars_len text). apply Forall_impl.
      intros s Hs. lia.
    + simpl. rewrite split_with_regex_concat. apply substring_refl.
  - apply split_loop_good; auto; try constructor.
    + intros _ s. apply IH. unfold pystr in *. lia.
    + destruct init'; discriminate.
    + simpl. rewrite split_with_regex_concat. apply substring_refl.
Qed.

Lemma split_text_good (text : pystr) :
  exists chunks,
    split_text cfg text = Ok chunks /\ Forall (good_chunk cfg text) chunks.
Proof.
  unfold split_text, separators.
  apply (_split_text_good 4 [[NL; NL]; [NL]; [SP]] text). simpl. lia.
Qed.

End SplitFacts.

End SplitterFacts.

Lemma splitter_size : (1 < Splitter.chunk_size splitter)%Z.
Proof. reflexivity. Qed.

Lemma splitter_overlap : (0 <= Splitter.chunk_overlap splitter)%Z.
Proof. discriminate. Qed.

(** The chunks built at start-up come from the loaded corpus text. *)
Lemma startup_chunks_good (w : World) (full_text : pystr) (chunks : list pystr) :
  outcome (build_index w full_text) = Ok chunks ->
  Forall (good_chunk splitter full_text) chunks.
Proof.
  intros H. apply build_index_Ok in H. destruct H as (Hs & _).
  destruct (SplitterFacts.split_text_good splitter splitter_size
              splitter_overlap full_text) as (cs & Hcs & Hgood).
  congruence.
Qed.

(** C2.  Chunking any text returns, and every chunk occurs in the text as a
    contiguous run of characters. *)
Theorem chunks_are_substrings (text : pystr) :
  exists chunks,
    Splitter.split_text splitter text = Ok chunks
    /\ Forall (fun chunk => substring chunk text) chunks.
Proof.
  destruct (SplitterFacts.split_text_good splitter splitter_size
              splitter_overlap text) as (chunks & Hs & Hgood).
  exists chunks. split; [exact Hs|].
  revert Hgood. apply Forall_impl. now intros chunk [H _].
Qed.

(** C5.  Chunking any text with the fixed parameters returns one sequence
    of chunks, the same at every run, and no chunk is longer than 500
    characters. *)
Theorem chunking_deterministic_and_bounded (text : pystr) :
  exists chunks,
    Splitter.split_text splitter text = Ok chunks
    /\ (forall again,
          Splitter.split_text splitter text = Ok again -> again = chunks)
    /\ Forall (fun chunk => length chunk <= 500) chunks.
Proof.
  destruct (SplitterFacts.split_text_good splitter splitter_size
              splitter_overlap text) as (chunks & Hs & Hgood).
  exists chunks. split; [exact Hs|]. split.
  - intros again H. congruence.
  - revert Hgood. apply Forall_impl. intros chunk [_ H].
    unfold Splitter.len in H. simpl in H. lia.
Qed.

Lemma chunks_are_substrings_witness :
  exists chunks,
    Splitter.split_text splitter Sample.long_text = Ok chunks
    /\ Forall (fun chunk => substring chunk Sample.long_text) chunks.
Proof. apply (chunks_are_substrings Sample.long_text). Defined.

Lemma chunking_deterministic_and_bounded_witness :
  exists chunks,
    Splitter.split_text splitter Sample.unbroken_text = Ok chunks
    /\ (forall again,
          Splitter.split_text splitter Sample.unbroken_text = Ok again ->
          again = chunks)
    /\ Forall (fun chunk => length chunk <= 500) chunks.
Proof.
  apply (chunking_deterministic_and_bounded Sample.unbroken_text).
Defined.

(** The chunker at work: chunk lengths on the sample texts. *)
Example split_text_samples :
  Splitter.split_text splitter Sample.two_paragraphs
    = Ok [Sample.two_paragraphs]
  /\ match Splitter.split_text splitter Sample.long_text with
     | Ok chunks => map (@length char) chunks = [499; 499; 499; 149]
     | Raise _ => False
     end
  /\ match Splitter.split_text splitter Sample.unbroken_text with
     | Ok chunks => map (@length char) chunks = [500; 500; 300]
     | Raise _ => False
     end.
Proof. split; [|split]; vm_compute; reflexivity. Qed.

(** * Further properties of the script *)

(** ** More on stripping *)

Lemma lstrip_head (s : pystr) :
  match lstrip s with
  | [] => True
  | c :: _ => isspace c = false
  end.
Proof.
  induction s as [|c r IH]; simpl; [exact I|].
  destruct (isspace c) eqn:Hc; [exact IH | exact Hc].
Qed.

Lemma lstrip_fixed (s : pystr) :
  match s with [] => True | c :: _ => isspace c = false end -> lstrip s = s.
Proof. destruct s as [|c r]; simpl; [reflexivity|]. now intros ->. Qed.

Lemma lstrip_idempotent (s : pystr) : lstrip (lstrip s) = lstrip s.
Proof. apply lstrip_fixed, lstrip_head. Qed.

Lemma rstrip_idempotent (s : pystr) : rstrip (rstrip s) = rstrip s.
Proof.
  unfold rstrip. now rewrite rev_involutive, lstrip_idempotent.
Qed.

Lemma rstrip_head (s : pystr) :
  match s with [] => True | c :: _ => isspace c = false end ->
  match rstrip s with [] => True | c :: _ => isspace c = false end.
Proof.
  intros H. destruct (rstrip_decompose s) as (post & Hs & _).
  destruct (rstrip s) as [|c r]; [exact I|].
  rewrite Hs in H. exact H.
Qed.

Lemma strip_head (s : pystr) :
  match strip s with [] => True | c :: _ => isspace c = false end.
Proof. apply rstrip_head, lstrip_head. Qed.

Lemma strip_idempotent (s : pystr) : stripped (strip s).
Proof.
  unfold stripped. unfold strip at 1.
  rewrite (lstrip_fixed (strip s) (strip_head s)).
  unfold strip. apply rstrip_idempotent.
Qed.

(** A stripped, non-empty text is not white space. *)
Lemma stripped_not_blank (s : pystr) :
  stripped s -> s <> [] -> blank s = false.
Proof.
  intros Hs Hne. destruct (blank s) eqn:Hb; [|reflexivity].
  apply strip_nil_iff in Hb. congruence.
Qed.

(** ** The extractors *)

Lemma blank_join_filter (paragraphs : list pystr) :
  blank (join [NL] (filter (fun p => truthy (strip p)) paragraphs))
  = forallb blank paragraphs.
Proof.
  induction paragraphs as [|p ps IH]; [reflexivity|].
  simpl filter. rewrite truthy_strip. simpl forallb.
  destruct (blank p) eqn:Hp; simpl negb; cbv iota; [exact IH|].
  rewrite SplitterFacts.join_cons, blank_app, Hp. reflexivity.
Qed.

(** X1.  The DOCX extractor opens the document once; what it returns is
    stripped, and is empty exactly when every paragraph is empty or white
    space; an exception of the document library passes through. *)
Theorem extract_text_from_docx_spec (docx_path : pystr) (f : File) :
  (forall paragraphs,
     f_paragraphs f = Ok paragraphs ->
     exists text,
       extract_text_from_docx docx_path f = ([EvDocument docx_path], Ok text)
       /\ stripped text
       /\ (text = [] <-> forallb blank paragraphs = true))
  /\ (forall e,
        f_paragraphs f = Raise e ->
        extract_text_from_docx docx_path f
        = ([EvDocument docx_path], Raise e)).
Proof.
  unfold extract_text_from_docx, call. split.
  - intros paragraphs ->. eexists. split; [reflexivity|]. split.
    + apply strip_idempotent.
    + rewrite strip_nil_iff. now rewrite blank_join_filter.
  - intros e ->. reflexivity.
Qed.

Lemma extract_text_from_docx_spec_witness :
  (exists text,
     extract_text_from_docx Sample.folder Sample.empty_docx
       = ([EvDocument Sample.folder], Ok text)
     /\ stripped text
     /\ (text = [] <-> forallb blank [lit "  "; []] = true))
  /\ extract_text_from_docx Sample.folder Sample.corrupt_pdf
     = ([EvDocument Sample.folder], Raise (LibraryError "PackageNotFoundError")).
Proof.
  split.
  - apply (proj1 (extract_text_from_docx_spec Sample.folder Sample.empty_docx)).
    reflexivity.
  - apply (proj2 (extract_text_from_docx_spec Sample.folder Sample.corrupt_pdf)).
    reflexivity.
Defined.

(** What the OCR loop returns and performs when every image is read. *)
Lemma ocr_images_all (lines : list pystr) (text : pystr) :
  ocr_images (map Ok lines) text
  = (repeat (EvImageToString (lit "hin")) (length lines),
     Ok (text ++ ocr_text lines)).
Proof.
  revert text. induction lines as [|l ls IH]; intros text.
  - simpl. unfold ret, ocr_text. simpl. now rewrite app_nil_r.
  - simpl ocr_images. unfold call, bind. rewrite IH. simpl.
    unfold ocr_text. simpl. now rewrite <- !app_assoc.
Qed.

Lemma ocr_images_outcome (images : list (result pystr)) (text : pystr) :
  outcome (ocr_images images text)
  = match page_texts images with
    | Ok lines => Ok (text ++ ocr_text lines)
    | Raise e => Raise e
    end.
Proof.
  revert text. induction images as [|[l|e] rest IH]; intros text; simpl.
  - unfold ocr_text. simpl. now rewrite app_nil_r.
  - rewrite outcome_bind. simpl. rewrite IH.
    destruct (page_texts rest) as [ls|e]; [|reflexivity].
    unfold ocr_text. simpl. now rewrite <- !app_assoc.
  - reflexivity.
Qed.

(** X2.  A scanned PDF: when no page has direct text and the OCR reads
    every image, the extractor announces the fallback, rasterises the file
    once, runs one Hindi OCR per image, and returns the recognised lines,
    one per image, stripped; the white space of the direct read leaves no
    mark on the result. *)
Theorem extract_text_from_pdf_scanned (pdf_path : pystr) (f : File)
    (texts lines : list pystr) :
  f_pages f = Ok (map Ok texts) -> forallb blank texts = true ->
  f_ocr f = Ok (map Ok lines) ->
  extract_text_from_pdf pdf_path f
  = (EvPdfReader pdf_path :: EvPrint (msg_using_ocr pdf_path)
     :: EvConvertFromPath pdf_path
     :: repeat (EvImageToString (lit "hin")) (length lines),
     Ok (strip (ocr_text lines))).
Proof.
  intros Hp Hb Ho. rewrite extract_text_from_pdf_cases, Hp.
  rewrite (proj2 (page_texts_Ok _ _) eq_refl), Hb. cbv zeta.
  unfold ocr_fallback, tell, call. rewrite Ho.
  unfold bind at 1 3. unfold bind at 1 2. rewrite ocr_images_all.
  unfold events, outcome. simpl fst. simpl snd. simpl app. cbv iota.
  rewrite strip_blank_prefix; [reflexivity|].
  now rewrite direct_text_blank.
Qed.

Lemma extract_text_from_pdf_scanned_witness :
  extract_text_from_pdf Sample.folder Sample.scan_pdf
  = ([EvPdfReader Sample.folder; EvPrint (msg_using_ocr Sample.folder);
      EvConvertFromPath Sample.folder;
      EvImageToString (lit "hin"); EvImageToString (lit "hin")],
     Ok (lit "line one")).
Proof.
  apply (extract_text_from_pdf_scanned Sample.folder Sample.scan_pdf
           [[]; lit "  "] [lit "line one"; lit " "]); reflexivity.
Defined.

(** X3.  Whatever a directory entry yields, a PDF read directly or through
    OCR, a DOCX, or nothing for another kind of file, is a stripped text. *)
Theorem extraction_stripped (folder : pystr) (f : File) (s : pystr) :
  outcome (extraction folder f) = Ok s -> stripped s.
Proof.
  unfold extraction.
  destruct (endswith (lit ".pdf") (f_name f));
    [|destruct (endswith (lit ".docx") (f_name f))].
  - rewrite extract_text_from_pdf_cases.
    destruct (f_pages f) as [pages|e]; [|discriminate].
    destruct (page_texts pages) as [texts|e]; [|discriminate].
    destruct (forallb blank texts).
    + cbv zeta. unfold outcome at 1. simpl snd.
      destruct (outcome _) as [text'|e]; [|discriminate].
      intros [= <-]. apply strip_idempotent.
    + intros [= <-]. apply strip_idempotent.
  - unfold extract_text_from_docx. rewrite outcome_bind. simpl.
    destruct (f_paragraphs f) as [ps|e]; [|discriminate].
    intros [= <-]. apply strip_idempotent.
  - intros [= <-]. reflexivity.
Qed.

Lemma extraction_stripped_witness :
  stripped (lit "line one").
Proof.
  apply (extraction_stripped Sample.folder Sample.scan_pdf). reflexivity.
Defined.

(** X4.  The PDF extractor swallows no exception: when it returns, the
    reader answered every page, and the text is the stripped direct text,
    or, when that is blank, the rasteriser and every OCR run answered too
    and the text is the stripped OCR text. *)
Theorem extract_text_from_pdf_returns (pdf_path : pystr) (f : File) (s : pystr) :
  outcome (extract_text_from_pdf pdf_path f) = Ok s ->
  exists texts,
    f_pages f = Ok (map Ok texts)
    /\ (forallb blank texts = false -> s = strip (direct_text texts))
    /\ (forallb blank texts = true ->
        exists lines, f_ocr f = Ok (map Ok lines) /\ s = strip (ocr_text lines)).
Proof.
  rewrite extract_text_from_pdf_cases.
  destruct (f_pages f) as [pages|e]; [|discriminate].
  destruct (page_texts pages) as [texts|e] eqn:Ht; [|discriminate].
  apply page_texts_Ok in Ht. subst pages.
  destruct (forallb blank texts) eqn:Hb.
  - cbv zeta. unfold outcome at 1. simpl snd.
    unfold ocr_fallback. rewrite !outcome_bind. simpl.
    destruct (f_ocr f) as [images|e]; [|discriminate].
    rewrite ocr_images_outcome.
    destruct (page_texts images) as [lines|e] eqn:Hl; [|discriminate].
    apply page_texts_Ok in Hl. subst images.
    intros [= <-]. exists texts. split; [reflexivity|].
    split; [rewrite Hb; discriminate|]. intros _. exists lines.
    split; [reflexivity|]. apply strip_blank_prefix.
    now rewrite direct_text_blank.
  - intros [= <-]. exists texts. split; [reflexivity|].
    split; [reflexivity | rewrite Hb; discriminate].
Qed.

Lemma extract_text_from_pdf_returns_witness :
  exists texts,
    f_pages Sample.report_pdf = Ok (map Ok texts)
    /\ (forallb blank texts = false ->
        lit "Annual report" = strip (direct_text texts))
    /\ (forallb blank texts = true ->
        exists lines,
          f_ocr Sample.report_pdf = Ok (map Ok lines)
          /\ lit "Annual report" = strip (ocr_text lines)).
Proof.
  apply (extract_text_from_pdf_returns Sample.folder Sample.report_pdf).
  reflexivity.
Defined.

(** ** More on the load loop *)

Lemma bind_ret_l {A B} (a : A) (k : A -> M B) : bind (ret a) k = k a.
Proof. unfold bind, ret. destruct (k a). reflexivity. Qed.

Lemma extraction_other (folder : pystr) (f : File) :
  is_document f = false -> extraction folder f = ret [].
Proof.
  unfold is_document, extraction. intros H.
  apply orb_false_iff in H. destruct H as [-> ->]. reflexivity.
Qed.

Lemma load_one_other (folder : pystr) (all_text : list pystr) (f : File) :
  is_document f = false -> load_one folder all_text f = ret all_text.
Proof.
  unfold is_document, load_one. intros H.
  apply orb_false_iff in H. destruct H as [-> ->]. reflexivity.
Qed.

(** X5.  Directory entries whose name ends neither in [.pdf] nor in
    [.docx] play no part in loading: no library is applied to them and the
    run is the one of the directory without them. *)
Theorem load_loop_ignores_other_files (folder : pystr) (files : list File)
    (all_text : list pystr) :
  load_loop folder files all_text
  = load_loop folder (filter is_document files) all_text.
Proof.
  revert all_text. induction files as [|f rest IH]; intros all_text;
    [reflexivity|].
  simpl. destruct (is_document f) eqn:Hf.
  - simpl. destruct (load_one folder all_text f) as [t [a|e]];
      unfold bind; [now rewrite IH | reflexivity].
  - rewrite (load_one_other folder all_text f Hf), bind_ret_l. apply IH.
Qed.

(** X6.  The loop stops at the first file whose extraction raises: the
    entries listed after it are never opened, whatever they are. *)
Theorem load_loop_stops_at_exception (folder : pystr) (before : list File)
    (f : File) (after : list File) (e : exn) (all_text : list pystr) :
  outcome (extraction folder f) = Raise e ->
  load_loop folder (before ++ f :: after) all_text
  = load_loop folder (before ++ [f]) all_text.
Proof.
  intros Hf. revert all_text.
  induction before as [|g rest IH]; intros all_text; simpl.
  - pose proof (load_one_outcome folder all_text f) as H. rewrite Hf in H.
    destruct (load_one folder all_text f) as [t [a|e']];
      [discriminate | reflexivity].
  - destruct (load_one folder all_text g) as [t [a|e']];
      unfold bind; [now rewrite IH | reflexivity].
Qed.

Lemma load_loop_stops_at_exception_witness :
  load_loop Sample.folder
    ([Sample.empty_docx] ++ Sample.corrupt_pdf
       :: [Sample.report_pdf; Sample.notes_docx]) []
  = load_loop Sample.folder ([Sample.empty_docx] ++ [Sample.corrupt_pdf]) [].
Proof.
  apply (load_loop_stops_at_exception Sample.folder [Sample.empty_docx]
           Sample.corrupt_pdf [Sample.report_pdf; Sample.notes_docx]
           (LibraryError "PdfReadError") []).
  reflexivity.
Defined.

Lemma load_loop_corpus (folder : pystr) (files : list File)
    (acc all_text : list pystr) :
  outcome (load_loop folder files acc) = Ok all_text ->
  Forall (fun t => t <> [] /\ stripped t) acc ->
  Forall (fun t => t <> [] /\ stripped t) all_text
  /\ length all_text <= length acc + length (filter is_document files).
Proof.
  revert acc. induction files as [|f rest IH]; intros acc; simpl.
  - intros [= <-] H. split; [exact H | lia].
  - rewrite outcome_bind, load_one_outcome.
    destruct (outcome (extraction folder f)) as [s|e] eqn:Hs; [|discriminate].
    intros Hl Hacc. apply IH in Hl.
    + destruct Hl as [Hall Hlen]. split; [exact Hall|].
      destruct (is_document f) eqn:Hd.
      * simpl. destruct (truthy s); [rewrite length_app in Hlen; simpl in Hlen|];
          lia.
      * rewrite (extraction_other folder f Hd) in Hs. injection Hs as <-.
        simpl in Hlen. lia.
    + destruct (truthy s) eqn:Ht; [|exact Hacc].
      apply Forall_app. split; [exact Hacc|]. constructor; [|constructor].
      split; [now apply truthy_true_iff|].
      now apply (extraction_stripped folder f).
Qed.

(** X7.  The corpus the loop builds holds only non-empty, stripped texts,
    at most one per PDF or DOCX entry of the directory. *)
Theorem load_loop_corpus_invariant (folder : pystr) (files : list File)
    (all_text : list pystr) :
  outcome (load_loop folder files []) = Ok all_text ->
  Forall (fun t => t <> [] /\ stripped t) all_text
  /\ length all_text <= length (filter is_document files).
Proof.
  intros H. apply (load_loop_corpus folder files [] all_text H). constructor.
Qed.

Lemma load_loop_corpus_invariant_witness :
  Forall (fun t => t <> [] /\ stripped t) [lit "Annual report"]
  /\ length [lit "Annual report"]
     <= length (filter is_document
                  [Sample.empty_docx; Sample.readme; Sample.report_pdf]).
Proof.
  apply (load_loop_corpus_invariant Sample.folder
           [Sample.empty_docx; Sample.readme; Sample.report_pdf]).
  reflexivity.
Defined.

(** ** More on start-up *)

Lemma load_documents_outcome (w : World) (files : list File) :
  w_documents w = Some (FsDir files) ->
  outcome (load_documents w)
  = match outcome (load_loop (data_folder w) files []) with
    | Ok all_text =>
        if nonempty all_text then Ok (join [NL] all_text)
        else Raise (ValueError msg_no_content)
    | Raise e => Raise e
    end.
Proof.
  intros H. rewrite (load_documents_listed w files H), outcome_bind.
  destruct (outcome (load_loop (data_folder w) files [])) as [all_text|e];
    [|reflexivity].
  destruct all_text; reflexivity.
Qed.

Lemma corpus_not_blank (all_text : list pystr) :
  Forall (fun t => t <> [] /\ stripped t) all_text ->
  nonempty all_text = true ->
  blank (join [NL] all_text) = false.
Proof.
  intros H Hne. destruct all_text as [|t ts]; [discriminate|].
  inversion H as [|? ? [Ht Hs] _]; subst.
  rewrite SplitterFacts.join_cons, blank_app.
  now rewrite (stripped_not_blank t Hs Ht).
Qed.

(** X8.  When loading returns, the folder is a directory, the extraction
    of every entry returned, and the text is the non-empty extracted texts
    in directory order, one per line group, joined by newlines; it is never
    blank. *)
Theorem load_documents_returns (w : World) (full_text : pystr) :
  outcome (load_documents w) = Ok full_text ->
  exists files,
    w_documents w = Some (FsDir files)
    /\ Forall (fun f => returns (extraction (data_folder w) f)) files
    /\ full_text
       = join [NL] (filter truthy (map (extracted_text_of (data_folder w)) files))
    /\ blank full_text = false.
Proof.
  intros H.
  destruct (w_documents w) as [[|files]|] eqn:Hd;
    try (unfold load_documents, list_documents in H; rewrite Hd in H;
         discriminate H).
  exists files. split; [reflexivity|].
  rewrite (load_documents_outcome w files Hd) in H.
  destruct (load_loop_cases (data_folder w) files []) as [Hret | [e He]];
    [|rewrite He in H; discriminate H].
  split; [exact Hret|].
  pose proof (load_loop_returns (data_folder w) files [] Hret) as Hl.
  simpl app in Hl. rewrite Hl in H.
  destruct (nonempty _) eqn:Hne; [|discriminate].
  injection H as <-. split; [reflexivity|].
  apply corpus_not_blank; [|exact Hne].
  now apply (load_loop_corpus_invariant (data_folder w) files).
Qed.

Lemma load_documents_returns_witness :
  exists files,
    w_documents Sample.world = Some (FsDir files)
    /\ Forall (fun f => returns (extraction (data_folder Sample.world) f)) files
    /\ Cases.corpus
       = join [NL] (filter truthy
                      (map (extracted_text_of (data_folder Sample.world)) files))
    /\ blank Cases.corpus = false.
Proof.
  apply (load_documents_returns Sample.world Cases.corpus). reflexivity.
Defined.

(** X9.  Loading succeeds as soon as the folder is a directory, no
    extraction raises and one entry yields text; the corpus text is then
    fixed by the directory listing. *)
Theorem load_documents_succeeds (w : World) (files : list File) :
  w_documents w = Some (FsDir files) ->
  Forall (fun f => returns (extraction (data_folder w) f)) files ->
  (exists f, In f files /\ yields_text (data_folder w) f) ->
  outcome (load_documents w)
  = Ok (join [NL] (filter truthy (map (extracted_text_of (data_folder w)) files))).
Proof.
  intros Hd Hret (f & Hin & s & Hs & Hne).
  rewrite (load_documents_outcome w files Hd).
  rewrite (load_loop_returns (data_folder w) files [] Hret). simpl app.
  assert (Hf : In s (filter truthy (map (extracted_text_of (data_folder w)) files))).
  { apply filter_In. split; [|now apply truthy_true_iff].
    apply in_map_iff. exists f. split; [|exact Hin].
    unfold extracted_text_of. now rewrite Hs. }
  destruct (filter truthy _); [destruct Hf | reflexivity].
Qed.

Lemma load_documents_succeeds_witness :
  outcome (load_documents Sample.world)
  = Ok (join [NL]
          (filter truthy
             (map (extracted_text_of (data_folder Sample.world))
                [Sample.notes_docx; Sample.readme; Sample.scan_pdf;
                 Sample.empty_docx]))).
Proof.
  apply (load_documents_succeeds Sample.world
           [Sample.notes_docx; Sample.readme; Sample.scan_pdf;
            Sample.empty_docx]).
  - reflexivity.
  - repeat constructor; eexists; reflexivity.
  - exists Sample.scan_pdf. split; [simpl; tauto|].
    exists (lit "line one"). split; [reflexivity | discriminate].
Defined.

Lemma build_index_trace (w : World) (full_text : pystr) (chunks : list pystr) :
  outcome (build_index w full_text) = Ok chunks ->
  events (build_index w full_text) ++ [EvFlask] = index_stages chunks.
Proof.
  unfold build_index.
  destruct (Splitter.split_text splitter full_text) as [cs|e];
    [|rewrite outcome_bind; discriminate].
  do 4 (rewrite outcome_bind, events_bind; simpl).
  destruct (w_faiss w cs) as [[]|e]; [|discriminate].
  simpl. intros [= <-]. reflexivity.
Qed.

(** X10.  Start-up is a straight pipeline.  When it completes, the
    credential was present, loading returned a text, the chunks are the
    split of that text and were accepted by the vector store, and the
    stages ran once each in the order load, split, embed, index, model,
    chain, application. *)
Theorem startup_pipeline (w : World) (chunks : list pystr) :
  outcome (startup w) = Ok chunks ->
  ~ key_missing w
  /\ exists full_text,
       outcome (load_documents w) = Ok full_text
       /\ Splitter.split_text splitter full_text = Ok chunks
       /\ w_faiss w chunks = Ok tt
       /\ events (startup w) = events (load_documents w) ++ index_stages chunks.
Proof.
  intros H. split.
  - intros Hk. unfold startup in H.
    rewrite outcome_bind, (check_api_key_missing w Hk) in H. discriminate H.
  - revert H. unfold startup. rewrite outcome_bind, events_bind.
    destruct (check_api_key w) as [t0 [k|e]] eqn:Hc; [|discriminate].
    assert (Ht0 : t0 = []).
    { unfold check_api_key in Hc.
      destruct (w_api_key w) as [[|c k']|]; now inversion Hc. }
    subst t0. simpl.
    rewrite outcome_bind, events_bind.
    destruct (outcome (load_documents w)) as [full_text|e]; [|discriminate].
    rewrite outcome_bind, events_bind.
    destruct (outcome (build_index w full_text)) as [cs|e] eqn:Hb;
      [|discriminate].
    rewrite outcome_bind. simpl. intros [= <-].
    exists full_text. split; [reflexivity|].
    destruct (build_index_Ok w full_text cs Hb) as (Hs & Hf & _).
    split; [exact Hs|]. split; [exact Hf|].
    now rewrite <- (build_index_trace w full_text cs Hb).
Qed.

Lemma startup_pipeline_witness :
  ~ key_missing Sample.world
  /\ exists full_text,
       outcome (load_documents Sample.world) = Ok full_text
       /\ Splitter.split_text splitter full_text = Ok [Cases.corpus]
       /\ w_faiss Sample.world [Cases.corpus] = Ok tt
       /\ events (startup Sample.world)
          = events (load_documents Sample.world) ++ index_stages [Cases.corpus].
Proof.
  apply (startup_pipeline Sample.world [Cases.corpus]).
  vm_compute. reflexivity.
Defined.

Lemma build_index_fails (w : World) (full_text : pystr) (chunks : list pystr)
    (e : exn) :
  Splitter.split_text splitter full_text = Ok chunks ->
  w_faiss w chunks = Raise e ->
  build_index w full_text
  = ([EvSplitText;
      EvPrint ([CHECK] ++ lit " Generated " ++ decimal (length chunks)
               ++ lit " text chunks.");
      EvOpenAIEmbeddings; EvFaissFromTexts (length chunks)],
     Raise e).
Proof.
  intros Hs Hf. unfold build_index, call, tell. rewrite Hs.
  unfold bind at 1. unfold bind at 1. unfold bind at 1. unfold bind at 1.
  rewrite Hf. reflexivity.
Qed.

(** X11.  When the vector store cannot be built (the embedding service
    fails), the module stops with that exception right after the attempt:
    no language-model client, retrieval chain or Flask application is
    created. *)
Theorem index_failure_stops_startup (w : World) (full_text : pystr)
    (chunks : list pystr) (e : exn) :
  ~ key_missing w ->
  outcome (load_documents w) = Ok full_text ->
  Splitter.split_text splitter full_text = Ok chunks ->
  w_faiss w chunks = Raise e ->
  outcome (module_main w) = Raise e
  /\ Forall (fun ev => after_index_event ev = false) (events (module_main w))
  /\ last (events (module_main w)) EvAppRun = EvFaissFromTexts (length chunks).
Proof.
  intros Hk Hl Hs Hf. destruct (check_api_key_present w Hk) as [k Hc].
  pose proof (load_documents_events w) as Hev.
  pose proof (build_index_fails w full_text chunks e Hs Hf) as Hb.
  assert (Ho : outcome (module_main w) = Raise e).
  { unfold module_main, startup.
    rewrite !outcome_bind, Hc. simpl. rewrite Hl, Hb. reflexivity. }
  assert (He : events (module_main w)
               = events (load_documents w) ++ events (build_index w full_text)).
  { unfold module_main, startup.
    rewrite !events_bind, !outcome_bind, Hc. simpl.
    rewrite Hl, Hb. simpl. now rewrite !app_nil_r. }
  split; [exact Ho|]. rewrite He, Hb. split.
  - apply Forall_app. split.
    + revert Hev. apply Forall_impl. now intros [].
    + repeat constructor.
  - unfold events at 2. simpl fst.
    match goal with
    | |- last (_ ++ [?a; ?b; ?c; ?d]) _ = _ =>
        change [a; b; c; d] with ([a; b; c] ++ [d])
    end.
    now rewrite app_assoc, last_last.
Qed.

Lemma index_failure_stops_startup_witness :
  outcome (module_main Cases.world_no_quota)
    = Raise (LibraryError "RateLimitError")
  /\ Forall (fun ev => after_index_event ev = false)
       (events (module_main Cases.world_no_quota))
  /\ last (events (module_main Cases.world_no_quota)) EvAppRun
     = EvFaissFromTexts (length [Cases.notes_text]).
Proof.
  apply (index_failure_stops_startup Cases.world_no_quota
           Cases.notes_text [Cases.notes_text]).
  - intros [H | H]; discriminate H.
  - reflexivity.
  - vm_compute. reflexivity.
  - reflexivity.
Defined.

(** X12.  In no environment does the module run to its end: whatever the
    credential, the folder, the services and the value of [__name__],
    executing or importing it stops on an exception. *)
Theorem module_main_never_returns (w : World) :
  exists e, outcome (module_main w) = Raise e.
Proof.
  unfold module_main. rewrite outcome_bind.
  destruct (outcome (startup w)) as [chunks|e].
  - rewrite main_guard_NameError. now exists (NameError msg_name_error).
  - now exists e.
Qed.

(** ** More on the query function *)

Lemma handle_user_input_cases (w : World) (user_query : pystr) :
  handle_user_input w user_query =
  match w_qa_run w user_query with
  | Raise e => ([EvQaRun user_query], Raise e)
  | Ok [] => ([EvQaRun user_query], Ok msg_sorry)
  | Ok (c :: h) =>
      ([EvQaRun user_query; EvLlmInvoke (translation_prompt_of (c :: h))],
       match w_llm_invoke w (translation_prompt_of (c :: h)) with
       | Raise e => Raise e
       | Ok [] => Ok msg_translation_failed
       | Ok (d :: en) => Ok (d :: en)
       end)
  end.
Proof.
  unfold handle_user_input, call. cbv zeta.
  destruct (w_qa_run w user_query) as [[|c h]|e]; try reflexivity.
  unfold bind at 1. simpl negb. cbv iota.
  destruct (w_llm_invoke w (translation_prompt_of (c :: h))) as [[|d en]|e];
    reflexivity.
Qed.

(** X13.  The query function never hands back an empty answer: what it
    returns is a placeholder or a non-empty translation. *)
Theorem handle_user_input_nonempty (w : World) (user_query answer : pystr) :
  outcome (handle_user_input w user_query) = Ok answer -> answer <> [].
Proof.
  rewrite handle_user_input_cases.
  destruct (w_qa_run w user_query) as [[|c h]|e]; simpl.
  - intros [= <-]. discriminate.
  - destruct (w_llm_invoke w (translation_prompt_of (c :: h))) as [[|d en]|e];
      intros [= <-]; discriminate.
  - discriminate.
Qed.

Lemma handle_user_input_nonempty_witness : msg_sorry <> [].
Proof.
  apply (handle_user_input_nonempty Sample.world_mute_chain Sample.question).
  reflexivity.
Defined.

Lemma prompt_contains_answer (hindi : pystr) :
  substring hindi (translation_prompt_of hindi).
Proof.
  unfold translation_prompt_of.
  exists (lit "Translate the following Hindi text to English:" ++ [NL; NL]),
         ([NL; NL] ++ lit "Provide a natural English answer.").
  now rewrite <- !app_assoc.
Qed.

(** X14.  A failure of either model call is not turned into an answer: it
    leaves the function as the exception it is, after the retrieval chain
    alone or after the chain and the translator.  The translator, when it
    is called, is given a prompt that quotes the Hindi answer in full. *)
Theorem handle_user_input_propagates (w : World) (user_query : pystr) :
  (forall e,
     w_qa_run w user_query = Raise e ->
     handle_user_input w user_query = ([EvQaRun user_query], Raise e))
  /\ (forall hindi e,
        w_qa_run w user_query = Ok hindi -> hindi <> [] ->
        w_llm_invoke w (translation_prompt_of hindi) = Raise e ->
        handle_user_input w user_query
        = ([EvQaRun user_query; EvLlmInvoke (translation_prompt_of hindi)],
           Raise e)
        /\ substring hindi (translation_prompt_of hindi)).
Proof.
  rewrite handle_user_input_cases. split.
  - intros e ->. reflexivity.
  - intros hindi e -> Hne Hl. destruct hindi as [|c h]; [congruence|].
    rewrite Hl. split; [reflexivity | apply prompt_contains_answer].
Qed.

Lemma handle_user_input_propagates_witness :
  handle_user_input Cases.world_chain_down Sample.question
    = ([EvQaRun Sample.question], Raise (LibraryError "APIConnectionError"))
  /\ outcome (handle_user_input Cases.world_translator_down Sample.question)
     = Raise (LibraryError "APIConnectionError").
Proof.
  split.
  - apply (proj1 (handle_user_input_propagates
                    Cases.world_chain_down Sample.question)).
    reflexivity.
  - rewrite (proj1 (proj2 (handle_user_input_propagates
                             Cases.world_translator_down Sample.question)
                      Cases.hindi_answer (LibraryError "APIConnectionError")
                      eq_refl ltac:(discriminate) eq_refl)).
    reflexivity.
Defined.

Lemma handle_user_input_events (w : World) (user_query : pystr) :
  events (handle_user_input w user_query) = [EvQaRun user_query]
  \/ exists prompt,
       events (handle_user_input w user_query)
       = [EvQaRun user_query; EvLlmInvoke prompt].
Proof.
  rewrite handle_user_input_cases.
  destruct (w_qa_run w user_query) as [[|c h]|e]; simpl; eauto.
Qed.

(** ** More on the routes *)

Lemma index_cases (w : World) (req : request) :
  index w req =
  if is_post (req_method req) && complete_form req then
    answer <- handle_user_input w
                (format_opt (multidict_get (lit "question") (req_form req))) ;;
    ret (answer_page
           (format_opt (multidict_get (lit "name") (req_form req)))
           (format_opt (multidict_get (lit "dob") (req_form req)))
           answer)
  else ret initial_page.
Proof.
  unfold index, complete_form, answer_page.
  destruct (req_method req); reflexivity.
Qed.

(** X15.  The root route consults the models exactly for a POST whose
    name, date of birth and question are all present and non-empty; every
    other request, a GET, or a POST lacking any of the three, gets the
    initial page without any model call. *)
Theorem index_invokes_qa_iff (w : World) (req : request) :
  existsb qa_event (events (index w req))
    = is_post (req_method req) && complete_form req
  /\ (is_post (req_method req) && complete_form req = false ->
      index w req = ([], Ok initial_page)).
Proof.
  rewrite index_cases.
  destruct (is_post (req_method req) && complete_form req).
  - split; [|discriminate]. rewrite events_bind.
    destruct (handle_user_input_events w
                (format_opt (multidict_get (lit "question") (req_form req))))
      as [-> | [prompt ->]]; reflexivity.
  - split; reflexivity.
Qed.

Lemma index_invokes_qa_iff_witness :
  existsb qa_event (events (index Sample.world Cases.post_complete)) = true
  /\ index Sample.world Cases.get_root = ([], Ok initial_page).
Proof.
  split.
  - rewrite (proj1 (index_invokes_qa_iff Sample.world Cases.post_complete)).
    reflexivity.
  - apply (proj2 (index_invokes_qa_iff Sample.world Cases.get_root)).
    reflexivity.
Defined.

(** X16.  For a complete POST the question goes to the query function
    unchanged; its answer is shown on a page that greets the user by name
    and echoes the name and the date of birth; its exception, if any, is
    the request's; and the route adds no call of its own. *)
Theorem index_answers_complete_post (w : World) (req : request)
    (user_name user_dob query : pystr) :
  req_method req = POST ->
  multidict_get (lit "name") (req_form req) = Some user_name ->
  multidict_get (lit "dob") (req_form req) = Some user_dob ->
  multidict_get (lit "question") (req_form req) = Some query ->
  user_name <> [] -> user_dob <> [] -> query <> [] ->
  events (index w req) = events (handle_user_input w query)
  /\ outcome (index w req)
     = match outcome (handle_user_input w query) with
       | Ok answer => Ok (answer_page user_name user_dob answer)
       | Raise e => Raise e
       end
  /\ substring user_name (greeting_for user_name).
Proof.
  intros Hm Hn Hd Hq Hn' Hd' Hq'. rewrite index_cases.
  unfold complete_form. rewrite Hm, Hn, Hd, Hq. simpl.
  apply truthy_true_iff in Hn', Hd', Hq'. rewrite Hn', Hd', Hq'. simpl.
  rewrite events_bind, outcome_bind.
  destruct (outcome (handle_user_input w query)) as [answer|e]; simpl.
  - rewrite app_nil_r. repeat split.
    unfold greeting_for.
    exists ([0x1F916%N] ++ lit " Welcome, "),
           (lit "! " ++ [0x1F389%N]
            ++ lit " I am here to assist you with queries from my trained knowledge.").
    now rewrite <- !app_assoc.
  - rewrite app_nil_r. repeat split.
    unfold greeting_for.
    exists ([0x1F916%N] ++ lit " Welcome, "),
           (lit "! " ++ [0x1F389%N]
            ++ lit " I am here to assist you with queries from my trained knowledge.").
    now rewrite <- !app_assoc.
Qed.

Lemma index_answers_complete_post_witness :
  events (index Sample.world Cases.post_complete)
    = events (handle_user_input Sample.world Sample.question)
  /\ outcome (index Sample.world Cases.post_complete)
     = match outcome (handle_user_input Sample.world Sample.question) with
       | Ok answer => Ok (answer_page (lit "Asha") (lit "2001-02-03") answer)
       | Raise e => Raise e
       end
  /\ substring (lit "Asha") (greeting_for (lit "Asha")).
Proof.
  apply (index_answers_complete_post Sample.world Cases.post_complete
           (lit "Asha") (lit "2001-02-03") Sample.question);
    try reflexivity; discriminate.
Defined.

(** X17.  Of the calls the script itself makes to the model libraries,
    one request to the root route makes at most two: the retrieval chain
    at most once, with the submitted question, and the translator at most
    once, only after the chain answered with a non-empty text and with the
    prompt built from that answer.  The route calls none of the document,
    OCR, splitter or vector-store operations of start-up. *)
Theorem index_model_calls (w : World) (req : request) :
  events (index w req) = []
  \/ (exists query,
        multidict_get (lit "question") (req_form req) = Some query
        /\ events (index w req) = [EvQaRun query])
  \/ (exists query hindi,
        multidict_get (lit "question") (req_form req) = Some query
        /\ w_qa_run w query = Ok hindi /\ hindi <> []
        /\ events (index w req)
           = [EvQaRun query; EvLlmInvoke (translation_prompt_of hindi)]).
Proof.
  rewrite index_cases.
  destruct (is_post (req_method req) && complete_form req) eqn:Hc;
    [|now left].
  right. apply andb_true_iff in Hc. destruct Hc as [_ Hc].
  unfold complete_form in Hc. apply andb_true_iff in Hc. destruct Hc as [_ Hq].
  destruct (multidict_get (lit "question") (req_form req)) as [query|];
    [|discriminate].
  simpl format_opt. rewrite events_bind, handle_user_input_cases.
  destruct (w_qa_run w query) as [[|c h]|e] eqn:Hrun.
  - left. now exists query.
  - right. exists query, (c :: h).
    split; [reflexivity|]. split; [exact Hrun|]. split; [discriminate|].
    unfold events, outcome. simpl.
    destruct (w_llm_invoke w (translation_prompt_of (c :: h))) as [[|d en]|e];
      reflexivity.
  - left. now exists query.
Qed.

(** X18.  The farewell determines the name it was made for: two different
    names never receive the same farewell. *)
Theorem farewell_for_injective (name1 name2 : pystr) :
  farewell_for name1 = farewell_for name2 -> name1 = name2.
Proof.
  unfold farewell_for. intros H.
  apply app_inv_head in H. apply app_inv_head in H.
  rewrite !app_assoc in H. apply app_inv_tail in H.
  now apply app_inv_tail in H.
Qed.

Lemma farewell_for_injective_witness : lit "Asha" = lit "Asha".
Proof.
  apply (farewell_for_injective (lit "Asha") (lit "Asha")). reflexivity.
Defined.
